(** * The chat calculator of [src/index.js]

    A shallow embedding of the [Calculator] object (tokenizer [read],
    shunting-yard converter [shuntingYard], stack evaluator [evaluateRPN])
    together with the part of the JavaScript semantics the three methods
    rely on: string-to-number coercion, [parseFloat], [parseInt],
    [String.prototype.indexOf], [Array.prototype.pop] on an empty array. *)

From Stdlib Require Import ZArith List String Ascii Bool Lia.
From Stdlib Require Import Floats.SpecFloat.
From Stdlib Require Import Sorting.Permutation.
Import ListNotations.

Local Open Scope string_scope.
Local Open Scope Z_scope.

(** ** JavaScript values and numeric conversions *)

Module JS.

(** A JavaScript Number is an IEEE-754 binary64 value. *)
Definition number : Type := spec_float.
Definition prec : Z := 53.
Definition emax : Z := 1024.

Definition NaN : number := S754_nan.
Definition add : number -> number -> number := SFadd prec emax.
Definition sub : number -> number -> number := SFsub prec emax.
Definition mul : number -> number -> number := SFmul prec emax.
Definition div : number -> number -> number := SFdiv prec emax.

(** The Number denoted by an integer (rounded to nearest, ties to even). *)
Definition ofZ (z : Z) : number := binary_normalize prec emax z 0 false.

Definition isNaN (x : number) : bool :=
  match x with S754_nan => true | _ => false end.

Definition finite (x : number) : bool :=
  match x with S754_zero _ | S754_finite _ _ _ => true | _ => false end.

(** The values that flow through the calculator: [undefined] (what
    [pop] gives on an empty array), strings (tokens) and numbers. *)
Inductive value : Type :=
| Undefined
| Str (s : string)
| Num (x : number).

(** *** Lexical classes.  A string is a sequence of code units; the
    embedding covers the code units below 256. *)

Definition isWhiteSpace (c : ascii) : bool :=
  existsb (N.eqb (N_of_ascii c)) [9; 10; 11; 12; 13; 32; 160]%N.

Definition isDigit (c : ascii) : bool :=
  ((48 <=? N_of_ascii c) && (N_of_ascii c <=? 57))%N.

Definition digitValue (c : ascii) : Z := Z.of_N (N_of_ascii c) - 48.

(** Value of a digit of radix up to 16, if it is one. *)
Definition radixDigit (radix : Z) (c : ascii) : option Z :=
  let n := Z.of_N (N_of_ascii c) in
  let v := if (48 <=? n) && (n <=? 57) then n - 48
           else if (97 <=? n) && (n <=? 102) then n - 87
           else if (65 <=? n) && (n <=? 70) then n - 55
           else 16 in
  if v <? radix then Some v else None.

Fixpoint trimStart (s : string) : string :=
  match s with
  | String c s' => if isWhiteSpace c then trimStart s' else s
  | EmptyString => EmptyString
  end.

Fixpoint trimEnd (s : string) : string :=
  match s with
  | EmptyString => EmptyString
  | String c s' =>
      match trimEnd s' with
      | EmptyString => if isWhiteSpace c then EmptyString else String c EmptyString
      | t => String c t
      end
  end.

(** Longest prefix of decimal digits, and what follows it. *)
Fixpoint spanDigits (s : string) : string * string :=
  match s with
  | String c s' =>
      if isDigit c then let (d, r) := spanDigits s' in (String c d, r)
      else (EmptyString, s)
  | EmptyString => (EmptyString, EmptyString)
  end.

(** Mathematical value of a string of decimal digits. *)
Fixpoint decimalValueFrom (acc : Z) (s : string) : Z :=
  match s with
  | String c s' => decimalValueFrom (10 * acc + digitValue c) s'
  | EmptyString => acc
  end.

Definition decimalValue (s : string) : Z := decimalValueFrom 0 s.

(** Value of a non-empty string of digits of the given radix. *)
Fixpoint radixValueFrom (radix acc : Z) (s : string) : option Z :=
  match s with
  | String c s' =>
      match radixDigit radix c with
      | Some v => radixValueFrom radix (radix * acc + v) s'
      | None => None
      end
  | EmptyString => Some acc
  end.

(** [0x], [0o] and [0b] literals (either case of the letter). *)
Definition nonDecimalValue (s : string) : option Z :=
  match s with
  | String "0" (String p (String c r)) =>
      let digits := String c r in
      if (p =? "x")%char || (p =? "X")%char then radixValueFrom 16 0 digits
      else if (p =? "o")%char || (p =? "O")%char then radixValueFrom 8 0 digits
      else if (p =? "b")%char || (p =? "B")%char then radixValueFrom 2 0 digits
      else None
  | _ => None
  end.

(** The Number nearest to [m * 10^e] (ties to even), with the sign
    [neg].  Beyond twenty significant digits the language lets an
    implementation round from a truncated literal; the nearest Number
    is what the V8 engine of Node.js returns. *)
Definition roundDecimal (neg : bool) (m e : Z) : number :=
  match m with
  | Zpos p =>
      if 0 <=? e
      then binary_normalize prec emax (if neg then - (m * 10 ^ e) else m * 10 ^ e) 0 false
      else SFdiv prec emax (S754_finite neg p 0)
                 (S754_finite false (Z.to_pos (10 ^ (- e))) 0)
  | _ => S754_zero neg
  end.

(** An optional sign, and what follows it. *)
Definition splitSign (s : string) : bool * string :=
  match s with
  | String "-" r => (true, r)
  | String "+" r => (false, r)
  | _ => (false, s)
  end.

(** An exponent part [e], [e+] or [e-] followed by digits, at the
    front of [s]: the exponent and what follows, if there is one. *)
Definition exponentPart (s : string) : option (Z * string) :=
  match s with
  | String c r =>
      if (c =? "e")%char || (c =? "E")%char then
        let (neg, r') := splitSign r in
        match spanDigits r' with
        | (EmptyString, _) => None
        | (d, rest) => Some (if neg then - decimalValue d else decimalValue d, rest)
        end
      else None
  | EmptyString => None
  end.

(** Longest prefix of [s] that is an unsigned decimal literal
    (digits, optional point and digits, optional exponent): the
    mantissa, the decimal exponent and the unread rest. *)
Definition decimalPrefix (s : string) : option (Z * Z * string) :=
  let (ip, r1) := spanDigits s in
  let '(fp, r2) :=
    match r1 with
    | String "." r => spanDigits r
    | _ => (EmptyString, r1)
    end in
  match ip ++ fp with
  | EmptyString => None
  | digits =>
      let m := decimalValue digits in
      let e := - Z.of_nat (String.length fp) in
      match exponentPart r2 with
      | Some (x, r3) => Some (m, e + x, r3)
      | None => Some (m, e, r2)
      end
  end.

Definition Infinity : string := "Infinity".

(** [Number(s)] for a string [s] (StringToNumber): the whole trimmed
    string has to be a numeric literal; the empty string is [+0]. *)
Definition StringToNumber (s : string) : number :=
  match trimEnd (trimStart s) with
  | EmptyString => S754_zero false
  | t =>
      match nonDecimalValue t with
      | Some z => ofZ z
      | None =>
          let (neg, u) := splitSign t in
          if (u =? Infinity)%string then S754_infinity neg
          else match decimalPrefix u with
               | Some (m, e, EmptyString) => roundDecimal neg m e
               | _ => NaN
               end
      end
  end.

(** [parseFloat(s)]: the longest prefix that is a decimal literal. *)
Definition parseFloat (s : string) : number :=
  let (neg, u) := splitSign (trimStart s) in
  if String.prefix Infinity u then S754_infinity neg
  else match decimalPrefix u with
       | Some (m, e, _) => roundDecimal neg m e
       | None => NaN
       end.

(** [parseInt(s, 10)]: the longest prefix of decimal digits. *)
Definition parseInt10 (s : string) : number :=
  let (neg, u) := splitSign (trimStart s) in
  match spanDigits u with
  | (EmptyString, _) => NaN
  | (d, _) => roundDecimal neg (decimalValue d) 0
  end.

(** ToNumber, as applied by [*], [/], [-] and [Math.pow]. *)
Definition ToNumber (v : value) : number :=
  match v with
  | Undefined => NaN
  | Str s => StringToNumber s
  | Num x => x
  end.

(** The global [isFinite(v)]. *)
Definition isFinite (v : value) : bool := finite (ToNumber v).

(** [s.indexOf(sub)]: position of the first occurrence, or [-1]. *)
Definition indexOf (s sub : string) : Z :=
  match String.index 0 sub s with
  | Some n => Z.of_nat n
  | None => -1
  end.

(** [a.pop()]; arrays used as stacks are kept top first. *)
Definition pop {A : Type} (undef : A) (a : list A) : A * list A :=
  match a with
  | x :: a' => (x, a')
  | [] => (undef, [])
  end.

End JS.

(** ** Exceptions and the shared token buffer *)

(** [ExpressionFormatException], the only exception the calculator
    throws. *)
Inductive exn : Type :=
| ExpressionFormatException (message : string).

Inductive outcome (A : Type) : Type :=
| Ret (a : A)
| Throw (e : exn).
Arguments Ret {A} a.
Arguments Throw {A} e.

(** A method of [Calculator] runs against [Calculator.tokens], the one
    array shared by all calls.  It returns or throws, and in both cases
    leaves the array as it has mutated it so far. *)
Definition M (A : Type) : Type := list string -> outcome A * list string.

Definition ret {A : Type} (a : A) : M A := fun tokens => (Ret a, tokens).

Definition throw {A : Type} (e : exn) : M A := fun tokens => (Throw e, tokens).

Definition bind {A B : Type} (m : M A) (k : A -> M B) : M B :=
  fun tokens =>
    match m tokens with
    | (Ret a, tokens') => k a tokens'
    | (Throw e, tokens') => (Throw e, tokens')
    end.

Declare Scope calc_scope.
Delimit Scope calc_scope with calc.
Notation "x <- m ;; k" := (bind m (fun x => k))
  (at level 61, m at next level, right associativity) : calc_scope.
Notation "m ;; k" := (bind m (fun _ => k))
  (at level 61, right associativity) : calc_scope.
Local Open Scope calc_scope.

(** [this.tokens] read as a whole. *)
Definition get_tokens : M (list string) := fun tokens => (Ret tokens, tokens).

(** [this.tokens.push(token)]. *)
Definition push_token (token : string) : M unit :=
  fun tokens => (Ret tt, (tokens ++ [token])%list).

(** [if (token !== '') this.tokens.push(token)]. *)
Definition flush (token : string) : M unit :=
  if (token =? "")%string then ret tt else push_token token.

(** The [while (this.tokens.length) token = this.tokens.shift()] loop
    takes every token off the front: the array is left empty. *)
Definition shift_all : M (list string) := fun tokens => (Ret tokens, []).

(** ** The calculator *)

Module Calculator.

(** [isNumber]: [!isNaN(parseFloat(input)) && isFinite(input)], on a
    token (tokens are strings). *)
Definition isNumber (input : string) : bool :=
  negb (JS.isNaN (JS.parseFloat input)) && JS.isFinite (JS.Str input).

(** [isInteger]: [!isNaN(parseInt(input, 10))]. *)
Definition isInteger (input : string) : bool :=
  negb (JS.isNaN (JS.parseInt10 input)).

(** *** [read] *)

Definition operators : string := "+-*/()^".

Definition unidentified : exn :=
  ExpressionFormatException "Your expression contains unidentified character(s).".

(** One-character string [input[i]]. *)
Definition char (c : ascii) : string := String c EmptyString.

(** The [for] loop of [read]; [token] is the local buffer.  The last
    element of an empty array reads [undefined], which [indexOf] would
    search as the string "undefined"; the test on the length comes
    first. *)
Fixpoint read_loop (input : string) (token : string) : M string :=
  match input with
  | EmptyString => ret token
  | String c rest =>
      if (c =? ".")%char then
        read_loop rest
          (if JS.indexOf token "." =? -1 then token ++ "." else token)
      else if isInteger (char c) then
        tokens <- get_tokens ;;
        if (token =? "-")%string
           && ((Z.of_nat (List.length tokens) =? 0)
               || negb (JS.indexOf operators (List.last tokens "undefined") =? -1))
        then read_loop rest (token ++ char c)
        else if JS.indexOf operators token =? -1
        then read_loop rest (token ++ char c)
        else flush token ;; read_loop rest (char c)
      else if negb (JS.indexOf operators (char c) =? -1) then
        flush token ;; read_loop rest (char c)
      else throw unidentified
  end.

Definition read (input : string) : M unit :=
  token <- read_loop input "" ;; flush token.

(** *** [shuntingYard] *)

(** A property of an object literal: own keys only ([undefined]
    otherwise). *)
Fixpoint property {A : Type} (object : list (string * A)) (key : string)
  : option A :=
  match object with
  | (k, v) :: object' => if (k =? key)%string then Some v else property object' key
  | [] => None
  end.

Definition precedence : string -> option Z :=
  property [("+", 2); ("-", 2); ("*", 3); ("/", 3); ("^", 4)].

Definition associativity : string -> option string :=
  property [("+", "left"); ("-", "left"); ("*", "left"); ("/", "left");
            ("^", "right")].

(** [a <= b] and [a < b] on numbers or [undefined]: false as soon as
    one side is [undefined]. *)
Definition lte (a b : option Z) : bool :=
  match a, b with Some x, Some y => x <=? y | _, _ => false end.

Definition lth (a b : option Z) : bool :=
  match a, b with Some x, Some y => x <? y | _, _ => false end.

(** [a === s] for a property [a] and a string [s]. *)
Definition same (a : option string) (s : string) : bool :=
  match a with Some x => (x =? s)%string | None => false end.

(** The regular expression [/^[-+*\/\^]$/] tested on a token. *)
Definition isOperator (token : string) : bool :=
  existsb (String.eqb token) ["-"; "+"; "*"; "/"; "^"].

(** The condition under which the operator [token] pops [o2]. *)
Definition yields (token o2 : string) : bool :=
  (same (associativity token) "left" && lte (precedence token) (precedence o2))
  || (same (associativity token) "right" && lth (precedence token) (precedence o2)).

(** The [for] loop over the operator stack (top first). *)
Fixpoint pop_operators (token : string) (outputQueue operatorStack : list string)
  : list string * list string :=
  match operatorStack with
  | o2 :: below =>
      if yields token o2
      then pop_operators token (outputQueue ++ [o2])%list below
      else (outputQueue, operatorStack)
  | [] => (outputQueue, [])
  end.

(** The [while] loop run on a right parenthesis. *)
Fixpoint pop_to_paren (outputQueue operatorStack : list string)
  : list string * list string :=
  match operatorStack with
  | top :: below =>
      if negb (top =? "(")%string
      then pop_to_paren (outputQueue ++ [top])%list below
      else (outputQueue, operatorStack)
  | [] => (outputQueue, [])
  end.

(** The main loop, on the tokens shifted off the buffer. *)
Fixpoint shuntingYard_loop (tokens outputQueue operatorStack : list string)
  : list string * list string :=
  match tokens with
  | [] => (outputQueue, operatorStack)
  | token :: rest =>
      if isNumber token then
        shuntingYard_loop rest (outputQueue ++ [token])%list operatorStack
      else if isOperator token then
        let (outputQueue', operatorStack') :=
          pop_operators token outputQueue operatorStack in
        shuntingYard_loop rest outputQueue' (token :: operatorStack')
      else if (token =? "(")%string then
        shuntingYard_loop rest outputQueue (token :: operatorStack)
      else if (token =? ")")%string then
        let (outputQueue', operatorStack') :=
          pop_to_paren outputQueue operatorStack in
        shuntingYard_loop rest outputQueue' (snd (JS.pop "" operatorStack'))
      else
        shuntingYard_loop rest outputQueue operatorStack
  end.

(** Popping the remaining operators appends the stack, top first. *)
Definition shuntingYard : M (list string) :=
  tokens <- shift_all ;;
  let (outputQueue, operatorStack) := shuntingYard_loop tokens [] [] in
  ret (outputQueue ++ operatorStack)%list.

(** *** [evaluateRPN] *)

Section Evaluator.

(** [Math.pow], whose results the language leaves to the
    implementation. *)
Variable Math_pow : JS.number -> JS.number -> JS.number.

Definition one : JS.number := JS.ofZ 1.

(** The body of the [for] loop; the stack is kept top first. *)
Definition evaluateRPN_step (stack : list JS.value) (token : string)
  : list JS.value :=
  if isNumber token then JS.Str token :: stack
  else
    let (second, stack1) := JS.pop JS.Undefined stack in
    let (first, stack2) := JS.pop JS.Undefined stack1 in
    if (token =? "*")%string then
      JS.Num (JS.mul (JS.ToNumber first) (JS.ToNumber second)) :: stack2
    else if (token =? "/")%string then
      JS.Num (JS.div (JS.ToNumber first) (JS.ToNumber second)) :: stack2
    else if (token =? "-")%string then
      JS.Num (JS.sub (JS.ToNumber first) (JS.ToNumber second)) :: stack2
    else if (token =? "+")%string then
      JS.Num (JS.add (JS.mul (JS.ToNumber first) one)
                     (JS.mul (JS.ToNumber second) one)) :: stack2
    else if (token =? "^")%string then
      JS.Num (Math_pow (JS.ToNumber first) (JS.ToNumber second)) :: stack2
    else stack2.

Definition evaluateRPN (input : list string) : JS.value :=
  fst (JS.pop JS.Undefined (fold_left evaluateRPN_step input [])).

(** The rest of an evaluation: the loop run on the tokens still to
    come from the stack reached so far, and the final [pop]. *)
Definition evaluateRPN_from (stack : list JS.value) (input : list string)
  : JS.value :=
  fst (JS.pop JS.Undefined (fold_left evaluateRPN_step input stack)).

(** *** The pipeline: the three calls the message handler makes on an
    expression whose spaces it has removed, [read], [shuntingYard],
    [evaluateRPN]; an exception of [read] ends it. *)
Definition evaluateExpression (raw : string) : M JS.value :=
  read raw ;;
  RPN <- shuntingYard ;;
  ret (evaluateRPN RPN).

End Evaluator.

End Calculator.

(** A power function that is exact where the result is a small
    integer: repeated multiplication for an exponent that is a natural
    number. It stands for [Math.pow] in the examples. *)
Definition exponentOf (y : JS.number) : option nat :=
  match y with
  | S754_zero _ => Some O
  | S754_finite false m e =>
      if (e <=? 0) && (Z.pos m mod 2 ^ (- e) =? 0)
      then Some (Z.to_nat (Z.pos m / 2 ^ (- e)))
      else None
  | _ => None
  end.

Fixpoint power (x : JS.number) (n : nat) : JS.number :=
  match n with
  | O => JS.ofZ 1
  | S n' => JS.mul x (power x n')
  end.

Definition pow_natural (x y : JS.number) : JS.number :=
  match exponentOf y with
  | Some n => power x n
  | None => JS.NaN
  end.

(** Every code unit of [s] satisfies [p]. *)
Fixpoint every (p : ascii -> bool) (s : string) : bool :=
  match s with
  | String c s' => p c && every p s'
  | EmptyString => true
  end.

(** The characters [read] accepts: the point, the digits and the seven
    operator and parenthesis symbols. *)
Definition isOperatorChar (c : ascii) : bool :=
  existsb (Ascii.eqb c) ["+"; "-"; "*"; "/"; "("; ")"; "^"]%char.

Definition identified (c : ascii) : bool :=
  (c =? ".")%char || JS.isDigit c || isOperatorChar c.

(** The operator metadata of the specification, as fixed values of
    their own and not read from the tables of [shuntingYard]: the
    precedence of [+] and [-] is 2, of [*] and [/] 3, of [^] 4; every
    operator is left-associative but [^], which is right-associative.
    A parenthesis has neither. *)
Inductive side : Type :=
| left_side
| right_side.

Definition spec_precedence (op : string) : option Z :=
  if (op =? "+")%string || (op =? "-")%string then Some 2
  else if (op =? "*")%string || (op =? "/")%string then Some 3
  else if (op =? "^")%string then Some 4
  else None.

Definition spec_associativity (op : string) : option side :=
  if (op =? "^")%string then Some right_side
  else if (op =? "+")%string || (op =? "-")%string
          || (op =? "*")%string || (op =? "/")%string then Some left_side
  else None.

(** The popping rule in the words of the specification: [op] is
    left-associative and its precedence is at most that of [top], or it
    is right-associative and its precedence is below that of [top]. *)
Definition must_pop (op top : string) : Prop :=
  exists p q,
    spec_precedence op = Some p /\ spec_precedence top = Some q /\
    ((spec_associativity op = Some left_side /\ p <= q) \/
     (spec_associativity op = Some right_side /\ p < q)).

(** The same rule as a test. *)
Definition pops (op top : string) : bool :=
  match spec_associativity op, spec_precedence op, spec_precedence top with
  | Some left_side, Some p, Some q => p <=? q
  | Some right_side, Some p, Some q => p <? q
  | _, _, _ => false
  end.

(** The operator step in the words of the specification: while the
    stack is not empty and [op] must pop its top, the top goes to the
    output queue; [popped_by] is what goes, in this order, and
    [kept_by] what stays on the stack. *)
Fixpoint popped_by (op : string) (operatorStack : list string) : list string :=
  match operatorStack with
  | top :: below => if pops op top then top :: popped_by op below else []
  | [] => []
  end.

Fixpoint kept_by (op : string) (operatorStack : list string) : list string :=
  match operatorStack with
  | top :: below => if pops op top then kept_by op below else operatorStack
  | [] => []
  end.

(** A numeric literal in the grammar of the specification: an optional
    leading minus, then digits with at most one decimal point, with one
    digit at least. *)
Definition isLiteralChar (c : ascii) : bool :=
  JS.isDigit c || (c =? ".")%char.

Fixpoint points (s : string) : nat :=
  match s with
  | String c s' => if (c =? ".")%char then S (points s') else points s'
  | EmptyString => O
  end.

Definition unsignedLiteral (u : string) : bool :=
  every isLiteralChar u
  && negb (every (fun c => negb (JS.isDigit c)) u)
  && (points u <=? 1)%nat.

Definition literal (s : string) : bool :=
  match s with
  | String "-" u => unsignedLiteral u
  | _ => unsignedLiteral s
  end.

(** The literal made of [n] nines. *)
Fixpoint nines (n : nat) : string :=
  match n with
  | O => EmptyString
  | S n' => String "9" (nines n')
  end.

(** The token array after [if (token !== '') this.tokens.push(token)]. *)
Definition flushed (token : string) (tokens : list string) : list string :=
  if (token =? "")%string then tokens else (tokens ++ [token])%list.

Import Calculator.

(** ** The message handler and what the further properties need *)

(** [s.replace(pattern, '')] for a string [pattern]: the first
    occurrence of the pattern is removed. *)
Definition remove_first (s pattern : string) : string :=
  match String.index 0 pattern s with
  | Some n =>
      substring 0 n s
      ++ substring (n + String.length pattern)
           (String.length s - (n + String.length pattern)) s
  | None => s
  end.

(** [s.replace(/ /g, '')]: every space is removed. *)
Fixpoint remove_spaces (s : string) : string :=
  match s with
  | String c s' =>
      if (c =? " ")%char then remove_spaces s' else String c (remove_spaces s')
  | EmptyString => EmptyString
  end.

(** [e.message]. *)
Definition message (e : exn) : string :=
  match e with ExpressionFormatException m => m end.

Section Handler.

Variable Math_pow : JS.number -> JS.number -> JS.number.

(** The conversion of a Number to a string, which [+] applies to a
    numeric result before it appends it. *)
Variable Number_toString : JS.number -> string.

(** ToString, as applied by [expression + '=' + result]. *)
Definition ToString (v : JS.value) : string :=
  match v with
  | JS.Undefined => "undefined"
  | JS.Str s => s
  | JS.Num x => Number_toString x
  end.

(** The listener of the room's messages: what it sends to the room,
    if anything, and the token buffer it leaves. *)
Definition on_message (text : string) (tokens : list string)
  : option string * list string :=
  if JS.indexOf text "calc " =? 0 then
    let expression := remove_first text "calc " in
    match evaluateExpression Math_pow (remove_spaces expression) tokens with
    | (Ret result, tokens') =>
        (Some (expression ++ "=" ++ ToString result), tokens')
    | (Throw e, tokens') => (Some (message e), tokens')
    end
  else (None, tokens).

(** The messages of a room in the order they arrive: the replies, and
    the buffer after the last one. *)
Fixpoint session (texts : list string) (tokens : list string)
  : list (option string) * list string :=
  match texts with
  | [] => ([], tokens)
  | text :: texts' =>
      let (reply, tokens') := on_message text tokens in
      let (replies, tokens'') := session texts' tokens' in
      (reply :: replies, tokens'')
  end.

(** What an operator token computes from its two operands: the five
    cases of the [switch] (NaN stands for a token that is none of
    them, on which nothing is computed). *)
Definition operate (token : string) (a b : JS.number) : JS.number :=
  if (token =? "*")%string then JS.mul a b
  else if (token =? "/")%string then JS.div a b
  else if (token =? "-")%string then JS.sub a b
  else if (token =? "+")%string then JS.add (JS.mul a one) (JS.mul b one)
  else if (token =? "^")%string then Math_pow a b
  else JS.NaN.

End Handler.

(** A message that is no request, or a request whose expression has
    identified characters only once its spaces are removed. *)
Definition well_formed (text : string) : bool :=
  negb (JS.indexOf text "calc " =? 0)
  || every identified (remove_spaces (remove_first text "calc ")).

(** [tokens.join('')]. *)
Definition join (tokens : list string) : string :=
  fold_right append "" tokens.

(** A run of digits and points in which only the first point is kept;
    [seen] says that a point came before the run. *)
Fixpoint keep_first_point (seen : bool) (s : string) : string :=
  match s with
  | String c s' =>
      if (c =? ".")%char
      then if seen then keep_first_point true s'
           else String c (keep_first_point true s')
      else String c (keep_first_point seen s')
  | EmptyString => EmptyString
  end.

(** The output queue [shuntingYard] returns for a buffer [tokens]. *)
Definition postfix (tokens : list string) : list string :=
  let (outputQueue, operatorStack) := shuntingYard_loop tokens [] [] in
  (outputQueue ++ operatorStack)%list.

(** The left parentheses on an operator stack. *)
Fixpoint parens (operatorStack : list string) : nat :=
  match operatorStack with
  | top :: below =>
      if (top =? "(")%string then S (parens below) else parens below
  | [] => O
  end.

(** The parentheses of a token sequence match up to [depth] left
    parentheses already open: the number still open at the end, if no
    right parenthesis comes without a left one. *)
Fixpoint balance (tokens : list string) (depth : nat) : option nat :=
  match tokens with
  | token :: rest =>
      if (token =? "(")%string then balance rest (S depth)
      else if (token =? ")")%string then
        match depth with
        | S depth' => balance rest depth'
        | O => None
        end
      else balance rest depth
  | [] => Some depth
  end.

(** What [read] may push: a non-empty string of identified characters. *)
Definition token_ok (t : string) : Prop :=
  t <> "" /\ every identified t = true.

(** The token has a point. *)
Definition pointed (token : string) : bool :=
  negb (every (fun c => negb (c =? ".")%char) token).

(** A literal that does not begin with its point. *)
Definition operand (b : string) : bool :=
  literal b && negb (String.prefix "." b).

(** What the operator stack may hold: operators and left parentheses. *)
Definition stack_ok (t : string) : Prop :=
  isOperator t = true \/ t = "(".

(** What the evaluation stack may hold after the tokens [input]: a
    number token of the input, as the string it is, or a Number. *)
Definition stack_value (input : list string) (v : JS.value) : Prop :=
  match v with
  | JS.Undefined => False
  | JS.Str s => isNumber s = true /\ In s input
  | JS.Num _ => True
  end.

(** A chain of operators and operands after a first operand, as text,
    as the tokens of the text, and in postfix order. *)
Fixpoint chain (pairs : list (ascii * string)) : string :=
  match pairs with
  | (o, b) :: pairs' => String o (b ++ chain pairs')
  | [] => EmptyString
  end.

Fixpoint chain_tokens (pairs : list (ascii * string)) : list string :=
  match pairs with
  | (o, b) :: pairs' => char o :: b :: chain_tokens pairs'
  | [] => []
  end.

Fixpoint chain_postfix (pairs : list (ascii * string)) : list string :=
  match pairs with
  | (o, b) :: pairs' => b :: char o :: chain_postfix pairs'
  | [] => []
  end.

(** Every operator of the chain pops every other: they are
    left-associative and of one precedence. *)
Definition one_level (pairs : list (ascii * string)) : bool :=
  forallb (fun p =>
             forallb (fun p' => yields (char (fst p')) (char (fst p))) pairs)
          pairs.

(** An operator followed by an operand with a finite value. *)
Definition chain_link (p : ascii * string) : Prop :=
  isOperator (char (fst p)) = true /\
  operand (snd p) = true /\ JS.isFinite (JS.Str (snd p)) = true.

Section Tower.

Variable Math_pow : JS.number -> JS.number -> JS.number.

(** The value of x ^ b1 ^ ... ^ bn grouped to the right. *)
Fixpoint tower (x : string) (pairs : list (ascii * string)) : JS.value :=
  match pairs with
  | (_, b) :: pairs' =>
      JS.Num (Math_pow (JS.StringToNumber x) (JS.ToNumber (tower b pairs')))
  | [] => JS.Str x
  end.

End Tower.

(** ** Characters *)

Ltac case_if :=
  match goal with
  | |- context [if ?b then _ else _] => destruct b eqn:?
  end.

Ltac each_char c :=
  destruct c as [[] [] [] [] [] [] [] []]; try discriminate; try reflexivity.

Lemma isInteger_char (c : ascii) : isInteger (char c) = JS.isDigit c.
Proof. each_char c. Qed.

Lemma operators_char (c : ascii) :
  negb (JS.indexOf operators (char c) =? -1) = isOperatorChar c.
Proof. each_char c. Qed.

Lemma digit_not_point (c : ascii) : JS.isDigit c = true -> (c =? ".")%char = false.
Proof. each_char c. Qed.

Lemma digit_not_operator (c : ascii) : JS.isDigit c = true -> isOperatorChar c = false.
Proof. each_char c. Qed.

Lemma point_not_operator : isOperatorChar "." = false.
Proof. reflexivity. Qed.

(** ** [indexOf] *)

Lemma every_app (p : ascii -> bool) (s t : string) :
  every p (s ++ t) = every p s && every p t.
Proof.
  induction s as [|c s IH]; simpl; [reflexivity|].
  now rewrite IH, andb_assoc.
Qed.

Lemma every_substring (p : ascii -> bool) (s : string) :
  every p s = true -> forall m n, every p (substring m n s) = true.
Proof.
  induction s as [|c s IH]; intros H m n; simpl in *.
  - destruct m, n; reflexivity.
  - apply andb_true_iff in H as [Hc Hs].
    destruct m; [destruct n|]; simpl; auto.
    now rewrite Hc, (IH Hs 0%nat n).
Qed.

(** A token with a character that is no operator symbol does not occur
    in [operators]. *)
Lemma indexOf_operators_none (token : string) :
  every isOperatorChar token = false -> JS.indexOf operators token = -1.
Proof.
  intros H. unfold JS.indexOf.
  destruct (index 0 token operators) as [m|] eqn:E; [|reflexivity].
  apply index_correct1 in E.
  rewrite <- E, every_substring in H; [discriminate | reflexivity].
Qed.

(** [token.indexOf('.') === -1] says that the token has no point. *)
Lemma indexOf_point (token : string) :
  (JS.indexOf token "." =? -1) = every (fun c => negb (c =? ".")%char) token.
Proof.
  unfold JS.indexOf.
  assert (G : forall t, match index 0 "." t with
                        | Some _ => every (fun c => negb (c =? ".")%char) t = false
                        | None => every (fun c => negb (c =? ".")%char) t = true
                        end).
  { induction t as [|c t IH]; [reflexivity|].
    cbn [index every prefix].
    destruct (ascii_dec "." c) as [<-|Hn].
    - destruct t; reflexivity.
    - assert ((c =? ".")%char = false) as -> by (apply Ascii.eqb_neq; congruence).
      cbn [negb andb]. destruct (index 0 "." t); assumption. }
  specialize (G token). destruct (index 0 "." token) as [n|]; rewrite G.
  - apply Z.eqb_neq. lia.
  - reflexivity.
Qed.

(** ** The loop of [read], one character at a time *)

Lemma flush_flushed (token : string) (tokens : list string) :
  flush token tokens = (Ret tt, flushed token tokens).
Proof. unfold flush, flushed. now destruct (token =? "")%string. Qed.

Lemma read_loop_cons (c : ascii) (rest token : string) (tokens : list string) :
  read_loop (String c rest) token tokens =
  if (c =? ".")%char then
    read_loop rest (if JS.indexOf token "." =? -1 then token ++ "." else token) tokens
  else if JS.isDigit c then
    if (token =? "-")%string
       && ((Z.of_nat (List.length tokens) =? 0)
           || negb (JS.indexOf operators (List.last tokens "undefined") =? -1))
    then read_loop rest (token ++ char c) tokens
    else if JS.indexOf operators token =? -1
    then read_loop rest (token ++ char c) tokens
    else read_loop rest (char c) (flushed token tokens)
  else if isOperatorChar c then read_loop rest (char c) (flushed token tokens)
  else (Throw unidentified, tokens).
Proof.
  cbn [read_loop]. rewrite isInteger_char, operators_char.
  destruct (c =? ".")%char; [reflexivity|].
  destruct (JS.isDigit c).
  - unfold bind at 1. unfold get_tokens.
    destruct (_ && _); [reflexivity|].
    destruct (JS.indexOf operators token =? -1); [reflexivity|].
    unfold bind. now rewrite flush_flushed.
  - destruct (isOperatorChar c); [|reflexivity].
    unfold bind. now rewrite flush_flushed.
Qed.

(** [read] throws exactly on an input with an unidentified character,
    whatever the buffer holds. *)
Lemma read_loop_returns (input : string) :
  every identified input = true ->
  forall token tokens, exists token' tokens',
    read_loop input token tokens = (Ret token', tokens').
Proof.
  induction input as [|c rest IH]; intros H token tokens.
  - now exists token, tokens.
  - simpl in H. apply andb_true_iff in H as [Hc Hrest].
    rewrite read_loop_cons. unfold identified in Hc.
    destruct (c =? ".")%char; [apply IH, Hrest|].
    destruct (JS.isDigit c).
    + destruct (_ && _); [apply IH, Hrest|].
      destruct (JS.indexOf operators token =? -1); apply IH, Hrest.
    + simpl in Hc. rewrite Hc. apply IH, Hrest.
Qed.

Lemma read_loop_throws (input : string) :
  every identified input = false ->
  forall token tokens, exists tokens',
    read_loop input token tokens = (Throw unidentified, tokens').
Proof.
  induction input as [|c rest IH]; intros H token tokens; [discriminate|].
  simpl in H. rewrite read_loop_cons. unfold identified in H.
  destruct (c =? ".")%char; [apply IH, H|].
  destruct (JS.isDigit c).
  - repeat case_if; apply IH, H.
  - simpl in H. destruct (isOperatorChar c); [apply IH, H|].
    now exists tokens.
Qed.

(** ** The operator loop of [shuntingYard] *)

Lemma isOperator_cases (token : string) :
  isOperator token = true ->
  token = "-" \/ token = "+" \/ token = "*" \/ token = "/" \/ token = "^".
Proof.
  unfold isOperator. cbn [existsb]. rewrite !orb_true_iff, !String.eqb_eq.
  intuition discriminate.
Qed.

Lemma isOperator_not_number (token : string) :
  isOperator token = true -> isNumber token = false.
Proof.
  intros H.
  destruct (isOperator_cases token H) as [->|[->|[->|[->| ->]]]]; reflexivity.
Qed.

(** The loop pops the longest run of operators that yield to [token]. *)
Lemma pop_operators_run (token : string) (operatorStack : list string) :
  forall outputQueue, exists popped kept,
    operatorStack = (popped ++ kept)%list /\
    Forall (fun top => yields token top = true) popped /\
    match kept with [] => True | top :: _ => yields token top = false end /\
    pop_operators token outputQueue operatorStack
    = ((outputQueue ++ popped)%list, kept).
Proof.
  induction operatorStack as [|o2 below IH]; intros outputQueue.
  - exists [], [].
    split; [reflexivity|]. split; [apply Forall_nil|]. split; [exact I|].
    cbn. now rewrite app_nil_r.
  - cbn [pop_operators]. destruct (yields token o2) eqn:E.
    + destruct (IH (outputQueue ++ [o2])%list) as (popped & kept & -> & HF & HK & ->).
      exists (o2 :: popped), kept. rewrite <- app_assoc.
      split; [reflexivity|]. split; [now apply Forall_cons|]. split; [exact HK|reflexivity].
    + exists [], (o2 :: below).
      split; [reflexivity|]. split; [apply Forall_nil|]. split; [exact E|].
      now rewrite app_nil_r.
Qed.

(** ** The evaluator, token by token *)

Section EvaluatorFacts.

Variable Math_pow : JS.number -> JS.number -> JS.number.

Lemma evaluateRPN_app (before after : list string) (token : string) :
  evaluateRPN Math_pow (before ++ token :: after) =
  evaluateRPN_from Math_pow
    (evaluateRPN_step Math_pow
       (fold_left (evaluateRPN_step Math_pow) before []) token)
    after.
Proof. unfold evaluateRPN, evaluateRPN_from. now rewrite fold_left_app. Qed.

Lemma evaluateRPN_step_operator (token : string) (stack : list JS.value) :
  isNumber token = false ->
  evaluateRPN_step Math_pow stack token =
  let second := fst (JS.pop JS.Undefined stack) in
  let first := fst (JS.pop JS.Undefined (snd (JS.pop JS.Undefined stack))) in
  let stack2 := skipn 2 stack in
  if (token =? "*")%string then
    JS.Num (JS.mul (JS.ToNumber first) (JS.ToNumber second)) :: stack2
  else if (token =? "/")%string then
    JS.Num (JS.div (JS.ToNumber first) (JS.ToNumber second)) :: stack2
  else if (token =? "-")%string then
    JS.Num (JS.sub (JS.ToNumber first) (JS.ToNumber second)) :: stack2
  else if (token =? "+")%string then
    JS.Num (JS.add (JS.mul (JS.ToNumber first) one)
                   (JS.mul (JS.ToNumber second) one)) :: stack2
  else if (token =? "^")%string then
    JS.Num (Math_pow (JS.ToNumber first) (JS.ToNumber second)) :: stack2
  else stack2.
Proof.
  intros H. unfold evaluateRPN_step. rewrite H.
  destruct stack as [|second [|first stack]]; reflexivity.
Qed.

Lemma mul_NaN_l (y : JS.number) : JS.mul JS.NaN y = JS.NaN.
Proof. now destruct y. Qed.

Lemma div_NaN_l (y : JS.number) : JS.div JS.NaN y = JS.NaN.
Proof. now destruct y. Qed.

Lemma sub_NaN_l (y : JS.number) : JS.sub JS.NaN y = JS.NaN.
Proof. now destruct y. Qed.

Lemma add_NaN_l (y : JS.number) : JS.add JS.NaN y = JS.NaN.
Proof. now destruct y. Qed.

End EvaluatorFacts.

Ltac table_key k s :=
  destruct (String.eqb_spec k s) as [<-|?]; [reflexivity|];
  rewrite ?(proj2 (String.eqb_neq s k)) by congruence.

(** The tables of [shuntingYard] hold the values of the
    specification. *)
Lemma precedence_spec (s : string) : precedence s = spec_precedence s.
Proof.
  unfold precedence, spec_precedence. cbn [property].
  table_key "+" s. table_key "-" s. table_key "*" s. table_key "/" s.
  table_key "^" s. reflexivity.
Qed.

Lemma associativity_spec (s : string) :
  associativity s
  = match spec_associativity s with
    | Some left_side => Some "left"
    | Some right_side => Some "right"
    | None => None
    end.
Proof.
  unfold associativity, spec_associativity. cbn [property].
  table_key "+" s. table_key "-" s. table_key "*" s. table_key "/" s.
  table_key "^" s. reflexivity.
Qed.

Lemma yields_pops (op top : string) : yields op top = pops op top.
Proof.
  unfold yields, pops, same, lte, lth.
  rewrite associativity_spec, !precedence_spec.
  destruct (spec_associativity op) as [[]|];
    destruct (spec_precedence op) as [p|];
    destruct (spec_precedence top) as [q|];
    cbn; rewrite ?orb_false_r, ?andb_false_r; reflexivity.
Qed.

Lemma pops_must_pop (op top : string) : pops op top = true <-> must_pop op top.
Proof.
  unfold pops, must_pop. split.
  - destruct (spec_associativity op) as [[]|]; try discriminate;
      destruct (spec_precedence op) as [p|]; try discriminate;
      destruct (spec_precedence top) as [q|]; try discriminate;
      intros H; exists p, q.
    + apply Z.leb_le in H. auto.
    + apply Z.ltb_lt in H. auto.
  - intros (p & q & -> & -> & [[-> H]|[-> H]]).
    + now apply Z.leb_le.
    + now apply Z.ltb_lt.
Qed.

Lemma yields_must_pop (op top : string) : yields op top = true <-> must_pop op top.
Proof. rewrite yields_pops. apply pops_must_pop. Qed.

(** The loop of the code pops what the specification says. *)
Lemma pop_operators_spec (token : string) (operatorStack : list string) :
  forall outputQueue,
    pop_operators token outputQueue operatorStack
    = ((outputQueue ++ popped_by token operatorStack)%list,
       kept_by token operatorStack).
Proof.
  induction operatorStack as [|o2 below IH]; intros outputQueue;
    cbn [pop_operators popped_by kept_by].
  - now rewrite app_nil_r.
  - rewrite yields_pops. destruct (pops token o2).
    + rewrite IH, <- app_assoc. reflexivity.
    + now rewrite app_nil_r.
Qed.

Lemma popped_kept (op : string) (operatorStack : list string) :
  operatorStack = (popped_by op operatorStack ++ kept_by op operatorStack)%list /\
  Forall (must_pop op) (popped_by op operatorStack) /\
  match kept_by op operatorStack with
  | [] => True
  | top :: _ => ~ must_pop op top
  end.
Proof.
  induction operatorStack as [|top below IH]; cbn [popped_by kept_by].
  - split; [reflexivity|]. split; [apply Forall_nil | exact I].
  - destruct (pops op top) eqn:E.
    + destruct IH as (H1 & H2 & H3). split; [cbn [app]; congruence|].
      split; [|exact H3]. apply Forall_cons; [|exact H2]. now apply pops_must_pop.
    + split; [reflexivity|]. split; [apply Forall_nil|].
      intros H. apply pops_must_pop in H. congruence.
Qed.

(** ** The claims *)

(** C1. On an operator token [op] (one of [+ - * / ^]) the converter
    moves to the output queue the run of stack tops that [op] must pop
    by the rule of the specification, taken with the specification's
    own precedences and associativities: tops are popped while [op] is
    left-associative with precedence at most that of the top, or
    right-associative with precedence below it, and the first top for
    which this fails stays with everything under it; then [op] is
    pushed.  And the pipeline gives 2+3*4 = 14, (2+3)*4 = 20 and, with
    a power function exact on the two powers involved, 2^3^2 = 512. *)
Theorem shuntingYard_operator_rule
  (Math_pow : JS.number -> JS.number -> JS.number)
  (token : string) (rest outputQueue operatorStack : list string) :
  In token ["+"; "-"; "*"; "/"; "^"] ->
  Math_pow (JS.ofZ 3) (JS.ofZ 2) = JS.ofZ 9 ->
  Math_pow (JS.ofZ 2) (JS.ofZ 9) = JS.ofZ 512 ->
  (operatorStack
   = (popped_by token operatorStack ++ kept_by token operatorStack)%list /\
   Forall (must_pop token) (popped_by token operatorStack) /\
   match kept_by token operatorStack with
   | [] => True
   | top :: _ => ~ must_pop token top
   end /\
   shuntingYard_loop (token :: rest) outputQueue operatorStack
   = shuntingYard_loop rest
       (outputQueue ++ popped_by token operatorStack)%list
       (token :: kept_by token operatorStack)) /\
  evaluateExpression Math_pow "2+3*4" [] = (Ret (JS.Num (JS.ofZ 14)), []) /\
  evaluateExpression Math_pow "(2+3)*4" [] = (Ret (JS.Num (JS.ofZ 20)), []) /\
  evaluateExpression Math_pow "2^3^2" [] = (Ret (JS.Num (JS.ofZ 512)), []).
Proof.
  intros Hin H9 H512.
  assert (Hop : isOperator token = true).
  { cbn [In] in Hin. destruct Hin as [<-|[<-|[<-|[<-|[<-|[]]]]]]; reflexivity. }
  split; [|split; [|split]].
  - destruct (popped_kept token operatorStack) as (H1 & H2 & H3).
    split; [exact H1|]. split; [exact H2|]. split; [exact H3|].
    cbn [shuntingYard_loop].
    now rewrite (isOperator_not_number token Hop), Hop, pop_operators_spec.
  - vm_compute. reflexivity.
  - vm_compute. reflexivity.
  - vm_compute in H9, H512. vm_compute. rewrite H9, H512. reflexivity.
Qed.

Lemma shuntingYard_operator_rule_witness :
  In "-" ["+"; "-"; "*"; "/"; "^"] /\
  popped_by "-" ["-"; "*"; "("; "+"] = ["-"; "*"] /\
  kept_by "-" ["-"; "*"; "("; "+"] = ["("; "+"] /\
  shuntingYard_loop ["-"; "1"] ["7"] ["-"; "*"; "("; "+"]
  = shuntingYard_loop ["1"] ["7"; "-"; "*"] ["-"; "("; "+"] /\
  popped_by "^" ["^"; "*"] = [] /\
  shuntingYard_loop ["^"; "1"] ["7"] ["^"; "*"]
  = shuntingYard_loop ["1"] ["7"] ["^"; "^"; "*"].
Proof.
  split; [simpl; auto|]. split; [reflexivity|]. split; [reflexivity|].
  split; [|split; [reflexivity|]].
  - refine (proj2 (proj2 (proj2 (proj1
      (shuntingYard_operator_rule pow_natural "-" ["1"] ["7"]
         ["-"; "*"; "("; "+"] _ _ _))))); [simpl; auto | reflexivity | reflexivity].
  - refine (proj2 (proj2 (proj2 (proj1
      (shuntingYard_operator_rule pow_natural "^" ["1"] ["7"]
         ["^"; "*"] _ _ _))))); [simpl; auto 10 | reflexivity | reflexivity].
Defined.

(** C3. On an operator the evaluator pops the right operand [second]
    first and the left operand [first] second, and pushes the number
    [first OP second]: the product, quotient and difference of the two
    operands read as numbers, their sum (each first multiplied by 1,
    which reads a string operand as a number) and, for [^], the power
    function applied to them in this order; and 8-3-2 = 3. *)
Theorem evaluateRPN_operand_order
  (Math_pow : JS.number -> JS.number -> JS.number)
  (before after : list string) (second first : JS.value)
  (stack : list JS.value) :
  fold_left (evaluateRPN_step Math_pow) before [] = second :: first :: stack ->
  let a := JS.ToNumber first in
  let b := JS.ToNumber second in
  evaluateRPN Math_pow (before ++ "*" :: after)
  = evaluateRPN_from Math_pow (JS.Num (JS.mul a b) :: stack) after /\
  evaluateRPN Math_pow (before ++ "/" :: after)
  = evaluateRPN_from Math_pow (JS.Num (JS.div a b) :: stack) after /\
  evaluateRPN Math_pow (before ++ "-" :: after)
  = evaluateRPN_from Math_pow (JS.Num (JS.sub a b) :: stack) after /\
  evaluateRPN Math_pow (before ++ "+" :: after)
  = evaluateRPN_from Math_pow
      (JS.Num (JS.add (JS.mul a one) (JS.mul b one)) :: stack) after /\
  evaluateRPN Math_pow (before ++ "^" :: after)
  = evaluateRPN_from Math_pow (JS.Num (Math_pow a b) :: stack) after /\
  evaluateExpression Math_pow "8-3-2" [] = (Ret (JS.Num (JS.ofZ 3)), []).
Proof.
  intros H a b. rewrite !evaluateRPN_app, H.
  repeat (split; [reflexivity|]). vm_compute. reflexivity.
Qed.

Lemma evaluateRPN_operand_order_witness :
  evaluateRPN pow_natural (["8"; "3"] ++ "-" :: ["2"; "-"])
  = evaluateRPN_from pow_natural
      [JS.Num (JS.sub (JS.ToNumber (JS.Str "8")) (JS.ToNumber (JS.Str "3")))]
      ["2"; "-"].
Proof.
  apply (evaluateRPN_operand_order pow_natural ["8"; "3"] ["2"; "-"]
           (JS.Str "3") (JS.Str "8") []).
  reflexivity.
Defined.

(** C4 as stated fails: an operator reached on an empty stack raises
    nothing; the evaluation returns NaN. *)
Lemma underflow_returns_NaN :
  evaluateRPN pow_natural ["+"] = JS.Num JS.NaN /\
  evaluateExpression pow_natural "+" [] = (Ret (JS.Num JS.NaN), []).
Proof. split; reflexivity. Qed.

(** C4, amended. An operator reached with fewer than two values on the
    stack raises no error: a missing operand reads as [undefined], so
    [*], [/], [-] and [+] push NaN on the emptied stack, [^] pushes
    the power function applied to NaN and to the operand that is left,
    and the evaluation goes on from there. *)
Theorem evaluateRPN_underflow
  (Math_pow : JS.number -> JS.number -> JS.number)
  (before after : list string) (token : string) (stack : list JS.value) :
  fold_left (evaluateRPN_step Math_pow) before [] = stack ->
  (List.length stack < 2)%nat ->
  (In token ["*"; "/"; "-"; "+"] ->
   evaluateRPN Math_pow (before ++ token :: after)
   = evaluateRPN_from Math_pow [JS.Num JS.NaN] after) /\
  evaluateRPN Math_pow (before ++ "^" :: after)
  = evaluateRPN_from Math_pow
      [JS.Num (Math_pow JS.NaN (JS.ToNumber (fst (JS.pop JS.Undefined stack))))]
      after.
Proof.
  intros H Hlen. rewrite !evaluateRPN_app, H. split.
  - intros Hin. f_equal.
    assert (Hskip : skipn 2 stack = [])
      by (destruct stack as [|x [|y stack']]; [reflexivity .. | simpl in Hlen; lia]).
    assert (Hfirst : fst (JS.pop JS.Undefined (snd (JS.pop JS.Undefined stack)))
                     = JS.Undefined)
      by (destruct stack as [|x [|y stack']]; [reflexivity .. | simpl in Hlen; lia]).
    cbn [In] in Hin.
    destruct Hin as [<-|[<-|[<-|[<-|[]]]]];
      rewrite evaluateRPN_step_operator by reflexivity;
      cbv zeta; rewrite Hskip, Hfirst; cbn [String.eqb Ascii.eqb Bool.eqb JS.ToNumber].
    + now rewrite mul_NaN_l.
    + now rewrite div_NaN_l.
    + now rewrite sub_NaN_l.
    + now rewrite mul_NaN_l, add_NaN_l.
  - f_equal. rewrite evaluateRPN_step_operator by reflexivity.
    destruct stack as [|x [|y stack']]; [reflexivity .. | simpl in Hlen; lia].
Qed.

Lemma evaluateRPN_underflow_witness :
  evaluateRPN pow_natural (["7"] ++ "*" :: ["2"; "+"])
  = evaluateRPN_from pow_natural [JS.Num JS.NaN] ["2"; "+"].
Proof.
  refine (proj1 (evaluateRPN_underflow pow_natural ["7"] ["2"; "+"] "*"
                   [JS.Str "7"] _ _) _).
  - reflexivity.
  - simpl. lia.
  - simpl. auto.
Defined.

(** C5 as stated fails: with two values left on the stack the
    evaluator returns the top one, and with none it returns
    [undefined]; no error is raised. *)
Lemma leftover_stack_returns_top :
  evaluateRPN pow_natural ["1"; "2"] = JS.Str "2" /\
  evaluateExpression pow_natural "(1)(2)" [] = (Ret (JS.Str "2"), []) /\
  evaluateRPN pow_natural [] = JS.Undefined /\
  evaluateExpression pow_natural "" [] = (Ret JS.Undefined, []).
Proof. repeat split; reflexivity. Qed.

(** C5, amended. After all tokens are consumed the evaluator returns
    the value on top of the stack: the single remaining value when
    there is exactly one, the last pushed when several remain, and
    [undefined] when the stack is empty; it raises no error. *)
Theorem evaluateRPN_result
  (Math_pow : JS.number -> JS.number -> JS.number) (input : list string) :
  evaluateRPN Math_pow input =
  match fold_left (evaluateRPN_step Math_pow) input [] with
  | [] => JS.Undefined
  | [v] => v
  | top :: _ :: _ => top
  end.
Proof.
  unfold evaluateRPN.
  now destruct (fold_left (evaluateRPN_step Math_pow) input []) as [|v [|w stack]].
Qed.

(** C10. On a token of the postfix sequence that is neither a number
    nor one of [+ - * / ^] the evaluator pops two values and pushes
    nothing, and goes on without an error.  Such a token is the ["("]
    that an unmatched open parenthesis leaves on the operator stack:
    the final drain of the converter copies it into the output queue,
    and "(2+3" evaluates to [undefined]. *)
Theorem evaluateRPN_unknown_token
  (Math_pow : JS.number -> JS.number -> JS.number)
  (before after : list string) (token : string) :
  isNumber token = false ->
  ~ In token ["*"; "/"; "-"; "+"; "^"] ->
  evaluateRPN Math_pow (before ++ token :: after)
  = evaluateRPN_from Math_pow
      (skipn 2 (fold_left (evaluateRPN_step Math_pow) before [])) after /\
  shuntingYard ["("; "2"; "+"; "3"] = (Ret ["2"; "3"; "+"; "("], []) /\
  evaluateRPN Math_pow ["2"; "3"; "+"; "("] = JS.Undefined /\
  evaluateExpression Math_pow "(2+3" [] = (Ret JS.Undefined, []).
Proof.
  intros Hnum Hin. split; [|repeat split; vm_compute; reflexivity].
  rewrite evaluateRPN_app, evaluateRPN_step_operator by exact Hnum.
  cbv zeta. cbn [In] in Hin.
  repeat match goal with
         | |- context [(token =? ?s)%string] =>
             destruct (String.eqb_spec token s);
             [exfalso; apply Hin; subst token; auto 10|]
         end.
  reflexivity.
Qed.

Lemma evaluateRPN_unknown_token_witness :
  evaluateRPN pow_natural (["2"; "3"; "+"] ++ "(" :: [])
  = evaluateRPN_from pow_natural
      (skipn 2 (fold_left (evaluateRPN_step pow_natural) ["2"; "3"; "+"] [])) [].
Proof.
  refine (proj1 (evaluateRPN_unknown_token pow_natural ["2"; "3"; "+"] [] "(" _ _)).
  - reflexivity.
  - simpl. intuition discriminate.
Defined.

(** ** The token buffer across calls *)

(** On an unidentified character [read] throws, and so does the
    pipeline, whatever the buffer holds. *)
Lemma read_unidentified (input : string) (tokens : list string) :
  every identified input = false ->
  exists tokens',
    read input tokens = (Throw unidentified, tokens') /\
    forall Math_pow,
      evaluateExpression Math_pow input tokens = (Throw unidentified, tokens').
Proof.
  intros H. destruct (read_loop_throws input H "" tokens) as [tokens' E].
  exists tokens'. unfold evaluateExpression, read, bind. now rewrite E.
Qed.

(** On an input of identified characters the pipeline returns a value
    and leaves the buffer empty. *)
Lemma evaluateExpression_identified
  (Math_pow : JS.number -> JS.number -> JS.number)
  (raw : string) (tokens : list string) :
  every identified raw = true ->
  exists v, evaluateExpression Math_pow raw tokens = (Ret v, []).
Proof.
  intros H.
  destruct (read_loop_returns raw H "" tokens) as (token' & tokens' & E).
  unfold evaluateExpression, read, shuntingYard, bind, shift_all, ret.
  rewrite E, flush_flushed.
  destruct (shuntingYard_loop (flushed token' tokens') [] []) as [q s].
  eexists. reflexivity.
Qed.

(** A call that returns leaves the buffer empty. *)
Lemma evaluateExpression_drains
  (Math_pow : JS.number -> JS.number -> JS.number)
  (raw : string) (tokens tokens' : list string) (v : JS.value) :
  evaluateExpression Math_pow raw tokens = (Ret v, tokens') -> tokens' = [].
Proof.
  unfold evaluateExpression, shuntingYard, bind, shift_all, ret.
  destruct (read raw tokens) as [[[]|e] tokens1]; [|discriminate].
  destruct (shuntingYard_loop tokens1 [] []).
  now intros [= _ <-].
Qed.

(** From an empty buffer, a call that returns gives the same result
    when it is made again. *)
Lemma evaluateExpression_again
  (Math_pow : JS.number -> JS.number -> JS.number)
  (raw : string) (tokens' : list string) (v : JS.value) :
  evaluateExpression Math_pow raw [] = (Ret v, tokens') ->
  evaluateExpression Math_pow raw tokens' = (Ret v, tokens').
Proof.
  intros H. pose proof (evaluateExpression_drains _ _ _ _ _ H) as E.
  subst tokens'. exact H.
Qed.

(** On a calculator whose buffer is empty, two calls in a row on the
    same string give the same result, a value or the exception. *)
Lemma evaluateExpression_twice
  (Math_pow : JS.number -> JS.number -> JS.number) (raw : string) :
  fst (evaluateExpression Math_pow raw
         (snd (evaluateExpression Math_pow raw [])))
  = fst (evaluateExpression Math_pow raw []).
Proof.
  destruct (every identified raw) eqn:H.
  - destruct (evaluateExpression_identified Math_pow raw [] H) as [v E].
    rewrite E. cbn [snd fst]. now rewrite E.
  - destruct (read_unidentified raw [] H) as (tokens1 & _ & E1).
    rewrite E1. cbn [snd fst].
    destruct (read_unidentified raw tokens1 H) as (tokens2 & _ & E2).
    now rewrite E2.
Qed.

(** C6. The code at "2+a": [read] throws at the unidentified [a], but
    the token pushed before it stays in [Calculator.tokens]. *)
Theorem read_error_keeps_tokens :
  read "2+a" [] = (Throw unidentified, ["2"]) /\
  evaluateExpression pow_natural "2+a" [] = (Throw unidentified, ["2"]).
Proof. split; reflexivity. Qed.

(** C7. The code on the messages "2+3a", "5", "5": the first throws and
    leaves two tokens behind, the second evaluates them together with
    its own and gives 7, the third gives the token 5. *)
Theorem stale_tokens_change_result :
  evaluateExpression pow_natural "2+3a" [] = (Throw unidentified, ["2"; "+"]) /\
  evaluateExpression pow_natural "5" ["2"; "+"] = (Ret (JS.Num (JS.ofZ 7)), []) /\
  evaluateExpression pow_natural "5" [] = (Ret (JS.Str "5"), []).
Proof. repeat split; reflexivity. Qed.

(** ** Unbalanced parentheses *)

Lemma pop_to_paren_drains (operatorStack : list string) :
  ~ In "(" operatorStack ->
  forall outputQueue,
    pop_to_paren outputQueue operatorStack
    = ((outputQueue ++ operatorStack)%list, []).
Proof.
  induction operatorStack as [|top below IH]; intros H outputQueue.
  - cbn. now rewrite app_nil_r.
  - cbn [pop_to_paren]. destruct (String.eqb_spec top "(") as [->|Hne].
    + exfalso. apply H. now left.
    + cbn [negb]. rewrite IH, <- app_assoc; [reflexivity|].
      intros Hin. apply H. now right.
Qed.

(** C9 as stated fails: "(2+3" evaluates to [undefined], which is
    neither a number nor an error. *)
Lemma unbalanced_returns_undefined :
  evaluateExpression pow_natural "(2+3" [] = (Ret JS.Undefined, []) /\
  (forall x, JS.Undefined <> JS.Num x).
Proof. split; [reflexivity | discriminate]. Qed.

(** C9, amended. On an input of identified characters, with balanced
    parentheses or not, nothing is raised: a right parenthesis that
    finds no left parenthesis on the operator stack moves the whole
    stack to the output queue and the conversion goes on, and the
    pipeline returns a value and leaves the buffer empty.  The value
    is a number, a token or [undefined]; there is no evaluation
    error. *)
Theorem evaluateExpression_returns
  (Math_pow : JS.number -> JS.number -> JS.number)
  (raw : string) (tokens : list string) :
  every identified raw = true ->
  (exists v, evaluateExpression Math_pow raw tokens = (Ret v, [])) /\
  (forall rest outputQueue operatorStack,
      ~ In "(" operatorStack ->
      shuntingYard_loop (")" :: rest) outputQueue operatorStack
      = shuntingYard_loop rest (outputQueue ++ operatorStack)%list []).
Proof.
  intros H. split.
  - now apply evaluateExpression_identified.
  - intros rest outputQueue operatorStack Hin.
    change (shuntingYard_loop (")" :: rest) outputQueue operatorStack)
      with (let (outputQueue', operatorStack') :=
              pop_to_paren outputQueue operatorStack in
            shuntingYard_loop rest outputQueue' (snd (JS.pop "" operatorStack'))).
    now rewrite pop_to_paren_drains.
Qed.

Lemma evaluateExpression_returns_witness :
  exists v, evaluateExpression pow_natural "2+3)*4" ["("] = (Ret v, []).
Proof.
  refine (proj1 (evaluateExpression_returns pow_natural "2+3)*4" ["("] _)).
  reflexivity.
Defined.

(** ** The minus sign *)

Ltac operator_char c H :=
  destruct c as [[] [] [] [] [] [] [] []];
  try (vm_compute in H; discriminate H).

(** A string of operator symbols does not start with a number. *)
Lemma operator_string_not_number (t : string) :
  every isOperatorChar t = true -> JS.isNaN (JS.parseFloat t) = true.
Proof.
  destruct t as [|c1 t1]; [reflexivity|]. cbn [every]. intros H.
  apply andb_true_iff in H as [H1 Ht1].
  operator_char c1 H1; try reflexivity;
    (destruct t1 as [|c2 t2]; [reflexivity|];
     cbn [every] in Ht1; apply andb_true_iff in Ht1 as [H2 _];
     operator_char c2 H2; reflexivity).
Qed.

(** A number token does not occur in [operators]. *)
Lemma number_not_in_operators (t : string) :
  isNumber t = true -> JS.indexOf operators t = -1.
Proof.
  intros H. destruct (every isOperatorChar t) eqn:E.
  - unfold isNumber in H. now rewrite (operator_string_not_number t E) in H.
  - now apply indexOf_operators_none.
Qed.

(** C2. The code at "(2)-3": the minus follows a closing parenthesis,
    which is in [operators] too, and is read into the literal [-3];
    the result is that token and not -1.  After the operand 2 alone
    the minus is an operator: 2-3 = -1. *)
Theorem minus_after_closing_parenthesis :
  read "(2)-3" [] = (Ret tt, ["("; "2"; ")"; "-3"]) /\
  evaluateExpression pow_natural "(2)-3" [] = (Ret (JS.Str "-3"), []) /\
  evaluateExpression pow_natural "2-3" [] = (Ret (JS.Num (JS.ofZ (-1))), []).
Proof. repeat split; reflexivity. Qed.

(** The positions in which the minus sign is read as intended.  A minus
    sign directly followed by a digit starts the literal of that digit when
    nothing precedes it in the token buffer or the token before it is
    an operator or an opening parenthesis; it is pushed as an operator
    token of its own, and the digit starts a new literal, when the
    token before it is a number.  Here the token before the minus is
    the last of [previous], the buffer once the token in progress has
    been pushed.  Also -5+3 = -2 and 5--3 = 8. *)
Lemma read_minus_before_digit
  (Math_pow : JS.number -> JS.number -> JS.number)
  (d : ascii) (rest token : string) (tokens : list string) :
  JS.isDigit d = true ->
  let previous := flushed token tokens in
  (previous = [] \/
   In (List.last previous "undefined") ["+"; "-"; "*"; "/"; "^"; "("] ->
   read_loop (String "-" (String d rest)) token tokens
   = read_loop rest (String "-" (char d)) previous) /\
  (isNumber (List.last previous "undefined") = true ->
   read_loop (String "-" (String d rest)) token tokens
   = read_loop rest (char d) (previous ++ ["-"])%list) /\
  evaluateExpression Math_pow "-5+3" [] = (Ret (JS.Num (JS.ofZ (-2))), []) /\
  evaluateExpression Math_pow "5--3" [] = (Ret (JS.Num (JS.ofZ 8)), []).
Proof.
  intros Hd previous.
  assert (E : read_loop (String "-" (String d rest)) token tokens
              = if (Z.of_nat (List.length previous) =? 0)
                   || negb (JS.indexOf operators (List.last previous "undefined") =? -1)
                then read_loop rest (String "-" (char d)) previous
                else read_loop rest (char d) (previous ++ ["-"])%list).
  { rewrite read_loop_cons. cbn [Ascii.eqb Bool.eqb]. 
    change (JS.isDigit "-") with false. change (isOperatorChar "-") with true.
    cbv iota. fold previous.
    rewrite read_loop_cons, (digit_not_point d Hd), Hd.
    change ("-" =? "-")%string with true. cbn [andb].
    destruct (_ || _); reflexivity. }
  split; [|split; [|split; vm_compute; reflexivity]].
  - intros [Hp|Hp]; rewrite E.
    + now rewrite Hp.
    + cbn [In] in Hp.
      destruct Hp as [<-|[<-|[<-|[<-|[<-|[<-|[]]]]]]];
        (destruct (_ =? 0); reflexivity).
  - intros Hnum. rewrite E.
    rewrite (number_not_in_operators _ Hnum).
    destruct previous as [|t previous']; [discriminate Hnum|reflexivity].
Qed.

Lemma read_minus_before_digit_example :
  JS.isDigit "3" = true /\
  read_loop "-3" "5" ["4"; "-"] = read_loop "" "3" (["4"; "-"; "5"] ++ ["-"])%list.
Proof.
  split; [reflexivity|].
  refine (proj1 (proj2 (read_minus_before_digit pow_natural "3" "" "5" ["4"; "-"] _)) _);
    reflexivity.
Defined.

(** ** Rounding never gives NaN *)

Lemma shr_1_nonneg (mrs : shr_record) :
  0 <= shr_m mrs -> 0 <= shr_m (shr_1 mrs).
Proof.
  destruct mrs as [m r s]. destruct m as [|[p|p|]|p]; cbn; intros H; try lia.
Qed.

Lemma iter_shr_1_nonneg (n : positive) :
  forall mrs, 0 <= shr_m mrs -> 0 <= shr_m (iter_pos shr_1 n mrs).
Proof.
  induction n as [n IH|n IH|]; intros mrs H; cbn [iter_pos].
  - apply IH, IH, shr_1_nonneg, H.
  - apply IH, IH, H.
  - apply shr_1_nonneg, H.
Qed.

Lemma shr_fexp_nonneg (m e : Z) (l : location) :
  0 <= m -> 0 <= shr_m (fst (shr_fexp JS.prec JS.emax m e l)).
Proof.
  intros H. unfold shr_fexp, shr.
  assert (H0 : 0 <= shr_m (shr_record_of_loc m l))
    by (destruct l as [|[]]; exact H).
  destruct (_ - e) as [|n|n]; cbn [fst]; auto using iter_shr_1_nonneg.
Qed.

Lemma binary_round_aux_not_NaN (s : bool) (m e : Z) (l : location) :
  0 <= m -> JS.isNaN (binary_round_aux JS.prec JS.emax s m e l) = false.
Proof.
  intros H. unfold binary_round_aux.
  pose proof (shr_fexp_nonneg m e l H) as H1.
  destruct (shr_fexp JS.prec JS.emax m e l) as [mrs' e']. cbn [fst] in H1.
  assert (H2 : 0 <= round_nearest_even (shr_m mrs') (loc_of_shr_record mrs')).
  { unfold round_nearest_even.
    destruct (loc_of_shr_record mrs') as [|[]]; try lia.
    destruct (Z.even (shr_m mrs')); lia. }
  pose proof (shr_fexp_nonneg _ e' loc_Exact H2) as H3.
  destruct (shr_fexp JS.prec JS.emax _ e' loc_Exact) as [mrs'' e''].
  cbn [fst] in H3.
  destruct (shr_m mrs'') as [|p|p]; [reflexivity | | lia].
  now destruct (e'' <=? JS.emax - JS.prec).
Qed.

Lemma binary_normalize_not_NaN (z : Z) :
  JS.isNaN (binary_normalize JS.prec JS.emax z 0 false) = false.
Proof.
  destruct z as [|p|p]; [reflexivity | |];
    unfold binary_normalize, binary_round;
    destruct (shl_align _ _ _) as [mz ez];
    apply binary_round_aux_not_NaN; lia.
Qed.

Lemma roundDecimal_not_NaN (neg : bool) (m e : Z) :
  JS.isNaN (JS.roundDecimal neg m e) = false.
Proof.
  unfold JS.roundDecimal. destruct m as [|p|p]; try reflexivity.
  destruct (0 <=? e); [apply binary_normalize_not_NaN|].
  unfold SFdiv, SFdiv_core_binary.
  set (q := Z.to_pos (10 ^ (- e))).
  set (m' := match _ - _ - _ with Z.pos _ => _ | 0 => _ | Z.neg _ => _ end).
  assert (Hm' : 0 <= m').
  { subst m'. destruct (_ - _ - _); try lia. now apply Z.shiftl_nonneg. }
  pose proof (Z.div_pos m' (Z.pos q) Hm' eq_refl) as Hq.
  unfold Z.div in Hq.
  destruct (Z.div_eucl m' (Z.pos q)) as [quo r].
  now apply binary_round_aux_not_NaN.
Qed.

(** ** Numeric literals *)

Lemma spanDigits_digits (s : string) :
  every JS.isDigit s = true -> JS.spanDigits s = (s, "").
Proof.
  induction s as [|c s IH]; cbn [every JS.spanDigits]; [reflexivity|].
  intros H. apply andb_true_iff in H as [-> Hs]. now rewrite (IH Hs).
Qed.

Lemma literal_char_cases (c : ascii) :
  isLiteralChar c = true ->
  (JS.isDigit c = true /\ (c =? ".")%char = false) \/
  (JS.isDigit c = false /\ c = "."%char).
Proof.
  unfold isLiteralChar. destruct (JS.isDigit c) eqn:E.
  - left. split; [reflexivity | now apply digit_not_point].
  - right. split; [reflexivity | now apply Ascii.eqb_eq].
Qed.

(** A string of digits and points without a point is a string of
    digits. *)
Lemma pointless_digits (s : string) :
  every isLiteralChar s = true -> points s = O -> every JS.isDigit s = true.
Proof.
  induction s as [|c s IH]; cbn [every points]; [reflexivity|].
  intros H Hp. apply andb_true_iff in H as [Hc Hs].
  destruct (literal_char_cases c Hc) as [[Hd Hn]|[Hd ->]].
  - rewrite Hn in Hp. rewrite Hd. now apply IH.
  - discriminate Hp.
Qed.

(** The digits in front of a literal are followed by nothing or by
    its point. *)
Lemma spanDigits_literal (u : string) :
  every isLiteralChar u = true ->
  exists ip r1,
    JS.spanDigits u = (ip, r1) /\ u = ip ++ r1 /\
    (r1 = "" \/ exists r, r1 = String "." r).
Proof.
  induction u as [|c u IH]; cbn [every JS.spanDigits]; intros H.
  - exists "", "". auto.
  - apply andb_true_iff in H as [Hc Hu].
    destruct (literal_char_cases c Hc) as [[Hd Hn]|[Hd ->]].
    + rewrite Hd. destruct (IH Hu) as (ip & r1 & -> & -> & Hr).
      exists (String c ip), r1. auto.
    + exists "", (String "." u). cbn. eauto.
Qed.

Lemma unsigned_decimalPrefix (u : string) :
  unsignedLiteral u = true ->
  exists m e r, JS.decimalPrefix u = Some (m, e, r).
Proof.
  unfold unsignedLiteral. intros H.
  apply andb_true_iff in H as [H Hp]. apply andb_true_iff in H as [Hl Hd].
  apply Nat.leb_le in Hp. apply negb_true_iff in Hd.
  assert (G : forall ip fp r2 c x,
             (ip ++ fp = String c x)%string ->
             exists m e r,
               match (ip ++ fp)%string with
               | EmptyString => None
               | digits =>
                   let m := JS.decimalValue digits in
                   let e := - Z.of_nat (String.length fp) in
                   match JS.exponentPart r2 with
                   | Some (x, r3) => Some (m, e + x, r3)
                   | None => Some (m, e, r2)
                   end
               end = Some (m, e, r)).
  { intros ip fp r2 c x ->. cbv zeta.
    destruct (JS.exponentPart r2) as [[y r3]|]; eauto. }
  unfold JS.decimalPrefix.
  destruct (spanDigits_literal u Hl) as (ip & r1 & -> & -> & [->|[r ->]]).
  - destruct ip as [|c ip]; [discriminate Hd|].
    apply (G (String c ip) "" "" c (ip ++ "")). reflexivity.
  - destruct (JS.spanDigits r) as [fp r2] eqn:Er.
    destruct ip as [|c ip].
    + cbn [append every points Ascii.eqb Bool.eqb] in Hl, Hd, Hp.
      assert (Hr : every JS.isDigit r = true).
      { apply pointless_digits; [|lia].
        change (isLiteralChar ".") with true in Hl. exact Hl. }
      rewrite (spanDigits_digits r Hr) in Er. injection Er as <- <-.
      destruct r as [|c r]; [discriminate Hd|].
      apply (G "" (String c r) "" c r). reflexivity.
    + apply (G (String c ip) fp r2 c (ip ++ fp)). reflexivity.
Qed.

Lemma literal_cons (c : ascii) (s : string) :
  c <> "-"%char -> literal (String c s) = unsignedLiteral (String c s).
Proof. intros H. each_char c. now elim H. Qed.

Lemma unsigned_first (u : string) :
  unsignedLiteral u = true ->
  exists c u', u = String c u' /\ isLiteralChar c = true.
Proof.
  unfold unsignedLiteral. destruct u as [|c u']; [discriminate|].
  cbn [every]. intros H. exists c, u'. split; [reflexivity|].
  destruct (isLiteralChar c); [reflexivity | discriminate].
Qed.

(** A literal character is no white space, no sign and no [I]. *)
Lemma parseFloat_unsigned (neg : bool) (u : string) :
  unsignedLiteral u = true ->
  JS.trimStart u = u /\ JS.splitSign u = (false, u) /\
  String.prefix JS.Infinity u = false.
Proof.
  intros H. destruct (unsigned_first u H) as (c & u' & -> & Hc).
  clear H. operator_char c Hc; repeat split; reflexivity.
Qed.

Lemma parseFloat_literal (s : string) :
  literal s = true -> JS.isNaN (JS.parseFloat s) = false.
Proof.
  intros H. destruct s as [|c s']; [discriminate|].
  destruct (ascii_dec c "-") as [->|Hc].
  - change (literal (String "-" s')) with (unsignedLiteral s') in H.
    destruct (parseFloat_unsigned true s' H) as (_ & _ & Hi).
    destruct (unsigned_decimalPrefix s' H) as (m & e & r & E).
    unfold JS.parseFloat.
    change (JS.splitSign (JS.trimStart (String "-" s'))) with (true, s').
    cbv beta iota. rewrite Hi, E. apply roundDecimal_not_NaN.
  - rewrite (literal_cons c s' Hc) in H.
    destruct (parseFloat_unsigned false _ H) as (Ht & Hs & Hi).
    destruct (unsigned_decimalPrefix _ H) as (m & e & r & E).
    unfold JS.parseFloat. rewrite Ht, Hs, Hi, E. apply roundDecimal_not_NaN.
Qed.

Lemma points_app (s t : string) : points (s ++ t) = (points s + points t)%nat.
Proof.
  induction s as [|c s IH]; cbn [append points]; [reflexivity|].
  rewrite IH. now destruct (c =? ".")%char.
Qed.

Lemma pointless (s : string) :
  points s = O -> every (fun c => negb (c =? ".")%char) s = true.
Proof.
  induction s as [|c s IH]; cbn [every points]; [reflexivity|].
  destruct (c =? ".")%char; [discriminate | exact IH].
Qed.

Lemma append_assoc (s t u : string) : (s ++ t) ++ u = s ++ t ++ u.
Proof. induction s as [|c s IH]; cbn; [reflexivity | now rewrite IH]. Qed.

(** Once the buffer holds a character that is no operator symbol, the
    digits and the single point that follow are appended to it. *)
Lemma read_loop_literal (rest : string) :
  every isLiteralChar rest = true ->
  forall token tokens,
    every isOperatorChar token = false ->
    (points (token ++ rest) <= 1)%nat ->
    read_loop rest token tokens = (Ret (token ++ rest), tokens).
Proof.
  induction rest as [|c rest IH]; cbn [every]; intros H token tokens Ht Hp.
  - cbn. unfold ret. f_equal. f_equal. clear. induction token; cbn; congruence.
  - apply andb_true_iff in H as [Hc Hrest].
    assert (Happ : token ++ String c rest = (token ++ char c) ++ rest)
      by (now rewrite append_assoc).
    rewrite read_loop_cons.
    destruct (literal_char_cases c Hc) as [[Hd Hn]|[Hd ->]].
    + rewrite Hn, Hd, (indexOf_operators_none token Ht).
      cbn [Z.eqb Pos.eqb]. rewrite Happ in *.
      assert (Ht' : every isOperatorChar (token ++ char c) = false).
      { rewrite every_app, Ht. reflexivity. }
      destruct (_ && _); apply IH; assumption.
    + cbn [Ascii.eqb Bool.eqb]. rewrite Happ in *.
      rewrite indexOf_point, pointless.
      * apply IH; [assumption | | assumption].
        rewrite every_app, Ht. reflexivity.
      * rewrite !points_app in Hp. cbn in Hp. lia.
Qed.

Lemma read_unsigned (u : string) :
  unsignedLiteral u = true ->
  read_loop u "" [] = (Ret u, []) /\ read_loop u "-" [] = (Ret (String "-" u), []).
Proof.
  intros H. destruct (unsigned_first u H) as (c & u' & -> & Hc).
  unfold unsignedLiteral in H.
  apply andb_true_iff in H as [H Hp]. apply andb_true_iff in H as [Hl _].
  apply Nat.leb_le in Hp. cbn [every] in Hl.
  apply andb_true_iff in Hl as [_ Hl].
  rewrite !read_loop_cons.
  destruct (literal_char_cases c Hc) as [[Hd Hn]|[Hd ->]].
  - rewrite Hn, Hd. cbn [points] in Hp. rewrite Hn in Hp.
    pose proof (digit_not_operator c Hd) as Ho.
    split; cbn -[read_loop];
      (rewrite read_loop_literal; [reflexivity | exact Hl | | ]);
      cbn [every append points char]; rewrite ?Ho, ?Hn; auto.
  - cbn [points Ascii.eqb Bool.eqb] in Hp.
    split; cbn -[read_loop];
      (rewrite read_loop_literal; [reflexivity | exact Hl | reflexivity | ]);
      cbn; lia.
Qed.

Lemma read_literal (s : string) :
  literal s = true -> read s [] = (Ret tt, [s]).
Proof.
  intros H. destruct s as [|c s']; [discriminate|].
  unfold read, bind. destruct (ascii_dec c "-") as [->|Hc].
  - change (literal (String "-" s')) with (unsignedLiteral s') in H.
    rewrite read_loop_cons. cbn -[read_loop]. unfold char.
    now rewrite (proj2 (read_unsigned s' H)).
  - rewrite (literal_cons c s' Hc) in H.
    now rewrite (proj1 (read_unsigned _ H)).
Qed.

Lemma literal_isNumber (s : string) :
  literal s = true -> JS.isFinite (JS.Str s) = true -> isNumber s = true.
Proof.
  intros H Hf. unfold isNumber. now rewrite (parseFloat_literal s H), Hf.
Qed.

(** A literal too large for a Number is no number for [isNumber]: the
    converter drops the token and the result is [undefined]. *)
Lemma overflowing_literal_dropped :
  literal (nines 310) = true /\
  evaluateExpression pow_natural (nines 310) [] = (Ret JS.Undefined, []).
Proof. split; vm_compute; reflexivity. Qed.

(** C8. The code at the literal 5: the evaluator pushes the token as it
    is and returns it, the string ["5"], which is no Number, although
    [evaluateRPN] is documented to return a Number and every operator
    path pushes one (5*1 returns the Number 5). *)
Theorem literal_returns_string :
  literal "5" = true /\
  evaluateExpression pow_natural "5" [] = (Ret (JS.Str "5"), []) /\
  (forall n, JS.Str "5" <> JS.Num n) /\
  evaluateExpression pow_natural "5*1" [] = (Ret (JS.Num (JS.ofZ 5)), []).
Proof.
  split; [reflexivity|]. split; [reflexivity|]. split; [discriminate|].
  reflexivity.
Qed.

(** X25. What the code does on a literal: for every numeric literal (an
    optional leading minus, digits with at most one decimal point)
    whose value is finite, the pipeline run on an empty token buffer
    returns the text of the literal unchanged, as a string and not as a
    Number: the evaluator pushes a number token as it is, and
    [isNumber] holds of it. *)
Theorem evaluateExpression_literal
  (Math_pow : JS.number -> JS.number -> JS.number) (s : string) :
  literal s = true ->
  JS.isFinite (JS.Str s) = true ->
  evaluateExpression Math_pow s [] = (Ret (JS.Str s), []) /\
  isNumber s = true.
Proof.
  intros H Hf. pose proof (literal_isNumber s H Hf) as Hn.
  split; [|exact Hn].
  unfold evaluateExpression, shuntingYard, bind, shift_all, ret.
  rewrite (read_literal s H). cbn [shuntingYard_loop]. rewrite Hn.
  cbn [app]. unfold evaluateRPN. cbn [fold_left]. unfold evaluateRPN_step.
  now rewrite Hn.
Qed.

Lemma evaluateExpression_literal_witness :
  (literal "-12.5" = true /\ JS.isFinite (JS.Str "-12.5") = true) /\
  evaluateExpression pow_natural "-12.5" [] = (Ret (JS.Str "-12.5"), []).
Proof.
  split; [split; reflexivity|].
  refine (proj1 (evaluateExpression_literal pow_natural "-12.5" _ _));
    reflexivity.
Defined.

(** ** Further properties of [read] *)

Lemma flushed_app (token : string) (tokens : list string) :
  flushed token tokens
  = (tokens ++ (if (token =? "")%string then [] else [token]))%list.
Proof.
  unfold flushed. destruct (token =? "")%string; [now rewrite app_nil_r | reflexivity].
Qed.

(** X1. [read] throws exactly when the input has a character that is
    no point, digit, operator or parenthesis; the exception is always
    the same, and the content of the buffer plays no part. *)
Theorem read_outcome (input : string) (tokens : list string) :
  fst (read input tokens)
  = if every identified input then Ret tt else Throw unidentified.
Proof.
  unfold read, bind. destruct (every identified input) eqn:H.
  - destruct (read_loop_returns input H "" tokens) as (token' & tokens' & ->).
    now rewrite flush_flushed.
  - now destruct (read_loop_throws input H "" tokens) as (tokens' & ->).
Qed.

Lemma identified_app_char (token : string) (c : ascii) :
  every identified token = true -> identified c = true ->
  every identified (token ++ char c) = true.
Proof. intros Ht Hc. rewrite every_app, Ht. cbn. now rewrite Hc. Qed.

Lemma flushed_ok (token : string) (tokens : list string) :
  every identified token = true ->
  exists added, flushed token tokens = (tokens ++ added)%list /\ Forall token_ok added.
Proof.
  intros H. rewrite flushed_app. destruct (String.eqb_spec token "") as [->|Hne].
  - exists []. split; [reflexivity | constructor].
  - exists [token]. split; [reflexivity|]. repeat constructor; assumption.
Qed.

Lemma read_loop_appends (input : string) :
  forall token tokens,
    every identified token = true ->
    exists added,
      snd (read_loop input token tokens) = (tokens ++ added)%list /\
      Forall token_ok added /\
      forall token', fst (read_loop input token tokens) = Ret token' ->
                     every identified token' = true.
Proof.
  induction input as [|c rest IH]; intros token tokens Ht.
  - exists []. cbn. rewrite app_nil_r. split; [reflexivity|].
    split; [constructor|]. now intros token' [= <-].
  - rewrite read_loop_cons.
    assert (Hfl : forall t, every identified t = true ->
                  exists added,
                    snd (read_loop rest t (flushed token tokens))
                    = (tokens ++ added)%list /\
                    Forall token_ok added /\
                    forall token', fst (read_loop rest t (flushed token tokens))
                                   = Ret token' ->
                                   every identified token' = true).
    { intros t Hok. destruct (flushed_ok token tokens Ht) as (a1 & -> & H1).
      destruct (IH t (tokens ++ a1)%list Hok) as (a2 & -> & H2 & H3).
      exists (a1 ++ a2)%list. rewrite app_assoc. split; [reflexivity|].
      split; [now apply Forall_app | exact H3]. }
    destruct (c =? ".")%char eqn:Ep.
    + apply Ascii.eqb_eq in Ep. subst c. apply IH.
      destruct (_ =? -1); [|exact Ht]. now apply (identified_app_char token ".").
    + destruct (JS.isDigit c) eqn:Ed.
      * assert (Hc : identified c = true) by (unfold identified; now rewrite Ed, orb_true_r).
        destruct (_ && _); [apply IH; now apply identified_app_char|].
        destruct (_ =? -1); [apply IH; now apply identified_app_char|].
        apply Hfl. cbn. now rewrite Hc.
      * destruct (isOperatorChar c) eqn:Eo.
        -- apply Hfl. cbn. unfold identified. now rewrite Eo, !orb_true_r.
        -- exists []. cbn. rewrite app_nil_r. split; [reflexivity|].
           split; [constructor | discriminate].
Qed.

(** X2. Whether it returns or throws, [read] only appends to the
    buffer: what was there stays in front, and every token it pushes
    is a non-empty string of identified characters. *)
Theorem read_appends (input : string) (tokens : list string) :
  exists added,
    snd (read input tokens) = (tokens ++ added)%list /\
    Forall (fun t => t <> "" /\ every identified t = true) added.
Proof.
  destruct (read_loop_appends input "" tokens eq_refl) as (a1 & H1 & H2 & H3).
  unfold read, bind.
  destruct (read_loop input "" tokens) as [[token'|e] tokens'].
  - cbn [snd fst] in H1, H3. subst tokens'. rewrite flush_flushed.
    destruct (flushed_ok token' (tokens ++ a1)%list (H3 token' eq_refl))
      as (a2 & E & H4).
    cbn [snd]. rewrite E. exists (a1 ++ a2)%list. rewrite app_assoc.
    split; [reflexivity | now apply Forall_app].
  - cbn [snd] in *. now exists a1.
Qed.

Lemma join_app (l1 l2 : list string) : join (l1 ++ l2) = join l1 ++ join l2.
Proof.
  induction l1 as [|t l1 IH]; cbn; [reflexivity|].
  unfold join in IH. now rewrite IH, append_assoc.
Qed.

Lemma append_empty (s : string) : s ++ "" = s.
Proof. induction s as [|c s IH]; cbn; congruence. Qed.

Lemma join_flushed (token : string) (tokens : list string) :
  join (flushed token tokens) = join tokens ++ token.
Proof.
  rewrite flushed_app, join_app. destruct (String.eqb_spec token "") as [->|_].
  - reflexivity.
  - cbn. now rewrite append_empty.
Qed.

Lemma read_loop_join (input : string) :
  forall token tokens token' tokens',
    (points token + points input <= 1)%nat ->
    read_loop input token tokens = (Ret token', tokens') ->
    join tokens' ++ token' = join tokens ++ token ++ input.
Proof.
  induction input as [|c rest IH]; intros token tokens token' tokens' Hp.
  - cbn. intros [= <- <-]. now rewrite append_empty.
  - rewrite read_loop_cons. cbn [points] in Hp.
    assert (Hstep : forall t ts,
               join ts ++ t = join tokens ++ token ++ char c ->
               (points t + points rest <= 1)%nat ->
               read_loop rest t ts = (Ret token', tokens') ->
               join tokens' ++ token' = join tokens ++ token ++ String c rest).
    { intros t ts Hj Hp' E. rewrite (IH _ _ _ _ Hp' E).
      rewrite <- !append_assoc, Hj. now rewrite !append_assoc. }
    assert (Happ : (points (token ++ char c) + points rest <= 1)%nat).
    { rewrite points_app. cbn. destruct (c =? ".")%char; lia. }
    assert (Hnew : join (flushed token tokens) ++ char c
                   = join tokens ++ token ++ char c).
    { now rewrite join_flushed, append_assoc. }
    destruct (c =? ".")%char eqn:Ep.
    + apply Ascii.eqb_eq in Ep. subst c.
      rewrite indexOf_point, pointless by lia.
      now apply Hstep.
    + destruct (JS.isDigit c).
      * destruct (_ && _); [now apply Hstep|].
        destruct (_ =? -1); [now apply Hstep|].
        apply Hstep; [exact Hnew | cbn; rewrite Ep; lia].
      * destruct (isOperatorChar c); [|discriminate].
        apply Hstep; [exact Hnew | cbn; rewrite Ep; lia].
Qed.

(** X3. Round trip of the tokenizer: on an empty buffer, an input with
    at most one decimal point that [read] accepts is cut into tokens
    without loss; joined again they give the input back. *)
Theorem read_join (input : string) (tokens : list string) :
  (points input <= 1)%nat ->
  read input [] = (Ret tt, tokens) ->
  join tokens = input.
Proof.
  intros Hp. unfold read, bind.
  destruct (read_loop input "" []) as [[token'|e] tokens'] eqn:E; [|discriminate].
  rewrite flush_flushed. intros [= <-].
  rewrite join_flushed. now apply (read_loop_join input "" [] token' tokens' Hp).
Qed.

Lemma read_join_witness : join ["("; "2.5"; "+"; "3"; ")"; "*"; "4"] = "(2.5+3)*4".
Proof.
  apply (read_join "(2.5+3)*4" ["("; "2.5"; "+"; "3"; ")"; "*"; "4"]).
  - simpl. lia.
  - reflexivity.
Defined.

(** A run of digits and points that follows an empty buffer, or a
    buffer with a character that is no operator symbol, is appended to
    it, every point after the first left out. *)
Lemma read_loop_run (rest : string) :
  every isLiteralChar rest = true ->
  forall more token tokens,
    token = "" \/ every isOperatorChar token = false ->
    read_loop (rest ++ more) token tokens
    = read_loop more (token ++ keep_first_point (pointed token) rest) tokens.
Proof.
  induction rest as [|c rest IH]; cbn [every append]; intros H more token tokens Ht.
  - cbn. now rewrite append_empty.
  - apply andb_true_iff in H as [Hc Hrest].
    rewrite read_loop_cons. cbn [keep_first_point].
    destruct (literal_char_cases c Hc) as [[Hd Hn]|[Hd ->]].
    + rewrite Hn, Hd.
      assert (Hnext : read_loop (rest ++ more) (token ++ char c) tokens
                      = read_loop more
                          (token ++ String c (keep_first_point (pointed token) rest))
                          tokens).
      { rewrite IH; [|exact Hrest|].
        - replace (pointed (token ++ char c)) with (pointed token).
          + now rewrite append_assoc.
          + unfold pointed. rewrite every_app. cbn [every char]. rewrite Hn.
            cbn [negb andb]. now rewrite andb_true_r.
        - right. rewrite every_app. cbn [every char].
          rewrite (digit_not_operator c Hd). apply andb_false_r. }
      destruct Ht as [->|Ht].
      * cbn -[read_loop JS.indexOf]. exact Hnext.
      * rewrite (indexOf_operators_none token Ht). cbn [Z.eqb Pos.eqb].
        destruct (_ && _); exact Hnext.
    + cbn [Ascii.eqb Bool.eqb]. rewrite indexOf_point. unfold pointed.
      destruct (every (fun c => negb (c =? ".")%char) token) eqn:Ep; cbn [negb].
      * rewrite IH; [|exact Hrest|].
        -- replace (pointed (token ++ ".")) with true.
           ++ now rewrite append_assoc.
           ++ unfold pointed. rewrite every_app. cbn. now rewrite andb_false_r.
        -- right. rewrite every_app. cbn. apply andb_false_r.
      * rewrite IH; [|exact Hrest|exact Ht].
        unfold pointed. now rewrite Ep.
Qed.

Lemma keep_first_point_id (s : string) :
  forall seen : bool, (points s <= if seen then 0 else 1)%nat ->
               keep_first_point seen s = s.
Proof.
  induction s as [|c s IH]; intros seen Hp; [reflexivity|].
  cbn [keep_first_point points] in *. destruct (c =? ".")%char.
  - destruct seen; [lia|]. f_equal. apply IH. lia.
  - f_equal. now apply IH.
Qed.

(** X4. A run of digits and points is read as one token, in which
    every point after the first is left out without an error: 1.2.3
    becomes the token 1.23. *)
Theorem read_run (s : string) (tokens : list string) :
  every isLiteralChar s = true ->
  s <> "" ->
  read s tokens = (Ret tt, (tokens ++ [keep_first_point false s])%list).
Proof.
  intros H Hne. unfold read, bind.
  pose proof (read_loop_run s H "" "" tokens (or_introl eq_refl)) as E.
  rewrite append_empty in E. rewrite E. cbn [read_loop ret append pointed every negb].
  rewrite flush_flushed, flushed_app.
  destruct s as [|c s]; [now elim Hne|].
  cbn [keep_first_point]. now destruct (c =? ".")%char.
Qed.

Lemma read_run_witness :
  read "1.2.3" ["7"; "*"] = (Ret tt, ["7"; "*"; "1.23"]).
Proof.
  apply (read_run "1.2.3" ["7"; "*"]); [reflexivity | discriminate].
Defined.

(** ** Literals in their context *)

Lemma unsigned_parts (u : string) :
  unsignedLiteral u = true ->
  every isLiteralChar u = true /\ (points u <= 1)%nat.
Proof.
  unfold unsignedLiteral. intros H.
  apply andb_true_iff in H as [H Hp]. apply andb_true_iff in H as [Hl _].
  apply Nat.leb_le in Hp. now split.
Qed.

Lemma unsigned_not_operators (u : string) :
  unsignedLiteral u = true -> every isOperatorChar u = false.
Proof.
  intros H. destruct (unsigned_first u H) as (c & u' & -> & Hc).
  cbn [every]. destruct (literal_char_cases c Hc) as [[Hd _]|[_ ->]].
  - now rewrite (digit_not_operator c Hd).
  - reflexivity.
Qed.

Lemma literal_not_operators (a : string) :
  literal a = true -> every isOperatorChar a = false /\ a <> "".
Proof.
  intros H. destruct a as [|c a']; [discriminate|]. split; [|discriminate].
  destruct (ascii_dec c "-") as [->|Hc].
  - change (literal (String "-" a')) with (unsignedLiteral a') in H.
    cbn [every]. now rewrite (unsigned_not_operators a' H).
  - rewrite (literal_cons c a' Hc) in H. now apply unsigned_not_operators.
Qed.

(** An unsigned literal met with an empty buffer is read whole into
    it, whatever the tokens pushed before. *)
Lemma read_loop_unsigned_more (u more : string) (tokens : list string) :
  unsignedLiteral u = true ->
  read_loop (u ++ more) "" tokens = read_loop more u tokens.
Proof.
  intros H. destruct (unsigned_parts u H) as [Hl Hp].
  rewrite (read_loop_run u Hl more "" tokens (or_introl eq_refl)).
  cbn [append pointed every negb]. now rewrite keep_first_point_id.
Qed.

(** The same after a minus sign that nothing precedes, or that an
    operator or a parenthesis precedes: the minus belongs to the
    literal. *)
Lemma read_loop_negative_more (u more : string) (tokens : list string) :
  unsignedLiteral u = true ->
  (Z.of_nat (List.length tokens) =? 0)
  || negb (JS.indexOf operators (List.last tokens "undefined") =? -1) = true ->
  read_loop (u ++ more) "-" tokens = read_loop more (String "-" u) tokens.
Proof.
  intros H Hprev. destruct (unsigned_parts u H) as [Hl Hp].
  destruct (unsigned_first u H) as (c & u' & -> & Hc).
  cbn [every] in Hl. apply andb_true_iff in Hl as [_ Hl].
  cbn [append points] in *. rewrite read_loop_cons.
  destruct (literal_char_cases c Hc) as [[Hd Hn]|[Hd ->]].
  - rewrite Hn, Hd, Hprev in *. cbn [String.eqb Ascii.eqb Bool.eqb andb].
    rewrite (read_loop_run u' Hl more).
    + replace (pointed ("-" ++ char c)) with false.
      * now rewrite keep_first_point_id.
      * unfold pointed. cbn [append char every]. now rewrite Hn.
    + right. cbn [append char every]. now rewrite (digit_not_operator c Hd).
  - cbn [Ascii.eqb Bool.eqb] in *.
    change (JS.indexOf "-" "." =? -1) with true. cbv iota.
    rewrite (read_loop_run u' Hl more); [|now right].
    change (pointed ("-" ++ ".")) with true.
    rewrite keep_first_point_id; [reflexivity | lia].
Qed.

Lemma read_loop_literal_more (a more : string) :
  literal a = true ->
  read_loop (a ++ more) "" [] = read_loop more a [].
Proof.
  intros H. destruct a as [|c a']; [discriminate|].
  destruct (ascii_dec c "-") as [->|Hc].
  - change (literal (String "-" a')) with (unsignedLiteral a') in H.
    cbn [append]. rewrite read_loop_cons. cbn -[read_loop append].
    now apply read_loop_negative_more.
  - rewrite (literal_cons c a' Hc) in H. now apply read_loop_unsigned_more.
Qed.

Lemma last_snoc (tokens : list string) (token d : string) :
  List.last (tokens ++ [token]) d = token.
Proof. apply last_last. Qed.

Lemma length_snoc_nonzero (tokens : list string) (token : string) :
  (Z.of_nat (List.length (tokens ++ [token])) =? 0) = false.
Proof. rewrite length_app. cbn. apply Z.eqb_neq. lia. Qed.

Lemma operator_char_in_operators (o : ascii) :
  isOperatorChar o = true -> (JS.indexOf operators (char o) =? -1) = false.
Proof. intros H. rewrite <- operators_char in H. now apply negb_true_iff in H. Qed.

Lemma flushed_char (o : ascii) (tokens : list string) :
  flushed (char o) tokens = (tokens ++ [char o])%list.
Proof. reflexivity. Qed.

(** After a token that is no operator, an operator symbol and an
    operand are read as two tokens more. *)
Lemma read_loop_operand (o : ascii) (b more token : string) (tokens : list string) :
  isOperatorChar o = true ->
  operand b = true ->
  token <> "" -> every isOperatorChar token = false ->
  read_loop (String o (b ++ more)) token tokens
  = read_loop more b (tokens ++ [token; char o])%list.
Proof.
  intros Ho Hb Hne Ht. unfold operand in Hb.
  apply andb_true_iff in Hb as [Hlit Hpre]. apply negb_true_iff in Hpre.
  rewrite read_loop_cons.
  assert (Hop : (o =? ".")%char = false)
    by (destruct (Ascii.eqb_spec o "."); [subst o; discriminate Ho | reflexivity]).
  assert (Hod : JS.isDigit o = false)
    by (destruct (JS.isDigit o) eqn:E; [now rewrite (digit_not_operator o E) in Ho | reflexivity]).
  rewrite Hop, Hod, Ho.
  replace (flushed token tokens) with (tokens ++ [token])%list
    by (unfold flushed; now destruct (String.eqb_spec token "")).
  replace (tokens ++ [token; char o])%list with ((tokens ++ [token]) ++ [char o])%list
    by (now rewrite <- app_assoc).
  destruct b as [|c b']; [discriminate|].
  destruct (ascii_dec c "-") as [->|Hc].
  - change (literal (String "-" b')) with (unsignedLiteral b') in Hlit.
    cbn [append]. rewrite read_loop_cons. cbn -[read_loop append flushed].
    rewrite flushed_char. apply read_loop_negative_more; [exact Hlit|].
    rewrite last_snoc, (operator_char_in_operators o Ho). apply orb_true_r.
  - rewrite (literal_cons c b' Hc) in Hlit.
    destruct (unsigned_parts _ Hlit) as [Hl Hp].
    cbn [every] in Hl. apply andb_true_iff in Hl as [Hcl Hl].
    destruct (literal_char_cases c Hcl) as [[Hd Hn]|[_ ->]];
      [|destruct b'; discriminate Hpre].
    cbn [append points] in *. rewrite Hn in Hp.
    rewrite read_loop_cons, Hn, Hd, last_snoc, length_snoc_nonzero.
    rewrite (indexOf_operators_none token Ht), (operator_char_in_operators o Ho).
    cbn [Z.eqb Pos.eqb negb orb]. rewrite andb_false_r, flushed_char.
    rewrite (read_loop_run b' Hl more).
    + replace (pointed (char c)) with false
        by (unfold pointed; cbn [char every]; now rewrite Hn).
      now rewrite keep_first_point_id.
    + right. cbn [char every]. now rewrite (digit_not_operator c Hd).
Qed.

(** A point that directly follows an operator symbol is appended to
    it, and so is the run of digits and points after it. *)
Lemma read_loop_operator_point (o : ascii) (r more token : string)
  (tokens : list string) :
  isOperatorChar o = true ->
  every isLiteralChar r = true ->
  read_loop (String o (String "." (r ++ more))) token tokens
  = read_loop more (String o (String "." (keep_first_point true r)))
      (flushed token tokens).
Proof.
  intros Ho Hr. rewrite read_loop_cons.
  assert (Hop : (o =? ".")%char = false)
    by (destruct (Ascii.eqb_spec o "."); [subst o; discriminate Ho | reflexivity]).
  assert (Hod : JS.isDigit o = false)
    by (destruct (JS.isDigit o) eqn:E; [now rewrite (digit_not_operator o E) in Ho | reflexivity]).
  rewrite Hop, Hod, Ho, read_loop_cons. cbn [Ascii.eqb Bool.eqb].
  rewrite indexOf_point. cbn [every char]. rewrite Hop. cbn [negb andb].
  rewrite (read_loop_run r Hr more).
  - replace (pointed (char o ++ ".")) with true
      by (unfold pointed; cbn [append char every]; now rewrite Hop).
    reflexivity.
  - right. cbn [char append every]. now rewrite Ho.
Qed.

(** X5. A point that directly follows an operator is glued to it: the
    operator is not pushed as a token, and the point and the digits
    after it extend it into one token, as in 2+.5, read as the two
    tokens 2 and +.5. *)
Theorem read_operator_point (a r : string) (o : ascii) :
  unsignedLiteral a = true ->
  isOperatorChar o = true ->
  every isLiteralChar r = true ->
  read (a ++ String o (String "." r)) []
  = (Ret tt, [a; String o (String "." (keep_first_point true r))]).
Proof.
  intros Ha Ho Hr. unfold read, bind.
  rewrite (read_loop_unsigned_more a _ [] Ha).
  pose proof (read_loop_operator_point o r "" a [] Ho Hr) as E.
  rewrite append_empty in E. rewrite E. cbn [read_loop ret].
  rewrite flush_flushed. unfold flushed at 2.
  destruct (unsigned_first a Ha) as (c & a' & -> & _). reflexivity.
Qed.

Lemma read_operator_point_witness :
  read "2+.5" [] = (Ret tt, ["2"; "+.5"]).
Proof.
  apply (read_operator_point "2" "5" "+"); reflexivity.
Defined.

(** ** Expressions with one and two operators *)

Lemma isOperator_char_cases (o : ascii) :
  isOperator (char o) = true -> isOperatorChar o = true.
Proof.
  intros H.
  destruct (isOperator_cases _ H) as [E|[E|[E|[E|E]]]];
    injection E as ->; reflexivity.
Qed.

Lemma evaluateRPN_step_operate
  (Math_pow : JS.number -> JS.number -> JS.number)
  (token : string) (second first : JS.value) (stack : list JS.value) :
  isOperator token = true ->
  evaluateRPN_step Math_pow (second :: first :: stack) token
  = JS.Num (operate Math_pow token (JS.ToNumber first) (JS.ToNumber second))
    :: stack.
Proof.
  intros H.
  destruct (isOperator_cases token H) as [->|[->|[->|[->| ->]]]]; reflexivity.
Qed.

Lemma evaluateRPN_step_number
  (Math_pow : JS.number -> JS.number -> JS.number)
  (token : string) (stack : list JS.value) :
  isNumber token = true ->
  evaluateRPN_step Math_pow stack token = JS.Str token :: stack.
Proof. intros H. unfold evaluateRPN_step. now rewrite H. Qed.

Lemma shuntingYard_on (tokens : list string) :
  shuntingYard tokens = (Ret (postfix tokens), []).
Proof.
  unfold shuntingYard, postfix, bind, shift_all, ret.
  now destruct (shuntingYard_loop tokens [] []).
Qed.

Lemma evaluateExpression_on
  (Math_pow : JS.number -> JS.number -> JS.number)
  (raw : string) (tokens tokens' : list string) :
  read raw tokens = (Ret tt, tokens') ->
  evaluateExpression Math_pow raw tokens
  = (Ret (evaluateRPN Math_pow (postfix tokens')), []).
Proof.
  intros H. unfold evaluateExpression, bind at 1. rewrite H.
  unfold bind. now rewrite shuntingYard_on.
Qed.

(** X6. A binary expression: for a literal [a], an operator [o] and a
    literal [b] that does not begin with its point, both with a finite
    value, the pipeline run on an empty buffer returns the number that
    [o] computes from the values of [a] and [b], in this order. *)
Theorem evaluateExpression_binary
  (Math_pow : JS.number -> JS.number -> JS.number)
  (a b : string) (o : ascii) :
  literal a = true -> JS.isFinite (JS.Str a) = true ->
  operand b = true -> JS.isFinite (JS.Str b) = true ->
  isOperator (char o) = true ->
  evaluateExpression Math_pow (a ++ String o b) []
  = (Ret (JS.Num (operate Math_pow (char o)
                    (JS.StringToNumber a) (JS.StringToNumber b))), []).
Proof.
  intros Ha Hfa Hb Hfb Ho.
  pose proof (literal_isNumber a Ha Hfa) as Hna.
  assert (Hlb : literal b = true)
    by (unfold operand in Hb; now apply andb_true_iff in Hb as [? _]).
  pose proof (literal_isNumber b Hlb Hfb) as Hnb.
  destruct (literal_not_operators a Ha) as [Hnop Hne].
  assert (Hread : read (a ++ String o b) [] = (Ret tt, [a; char o; b])).
  { unfold read, bind. rewrite (read_loop_literal_more a _ Ha).
    pose proof (read_loop_operand o b "" a [] (isOperator_char_cases o Ho)
                  Hb Hne Hnop) as E.
    rewrite append_empty in E. rewrite E. cbn [read_loop ret app].
    rewrite flush_flushed. unfold flushed.
    destruct b; [discriminate Hlb | reflexivity]. }
  rewrite (evaluateExpression_on Math_pow _ _ _ Hread). f_equal. f_equal.
  unfold postfix. cbn [shuntingYard_loop].
  rewrite Hna, (isOperator_not_number _ Ho), Ho. cbn [pop_operators app].
  rewrite Hnb. cbn [app]. unfold evaluateRPN. cbn [fold_left].
  rewrite (evaluateRPN_step_number Math_pow a _ Hna).
  rewrite (evaluateRPN_step_number Math_pow b _ Hnb).
  now rewrite evaluateRPN_step_operate.
Qed.

Lemma evaluateExpression_binary_witness :
  evaluateExpression pow_natural ("-1.5" ++ String "*" "-4") []
  = (Ret (JS.Num (operate pow_natural (char "*")
                    (JS.StringToNumber "-1.5") (JS.StringToNumber "-4"))), []).
Proof.
  apply (evaluateExpression_binary pow_natural "-1.5" "-4" "*"); reflexivity.
Defined.

(** X7. Precedence and associativity at work: for number tokens [a],
    [b], [c] and operators [o1], [o2], the sequence a o1 b o2 c
    evaluates to (a o1 b) o2 c when [o2] pops [o1] (it is
    left-associative and binds no tighter, or right-associative and
    binds less tightly), and to a o1 (b o2 c) otherwise. *)
Theorem evaluateRPN_grouping
  (Math_pow : JS.number -> JS.number -> JS.number)
  (a b c o1 o2 : string) :
  isNumber a = true -> isNumber b = true -> isNumber c = true ->
  isOperator o1 = true -> isOperator o2 = true ->
  let A := JS.StringToNumber a in
  let B := JS.StringToNumber b in
  let C := JS.StringToNumber c in
  postfix [a; o1; b; o2; c]
  = (if yields o2 o1 then [a; b; o1; c; o2] else [a; b; c; o2; o1]) /\
  evaluateRPN Math_pow (postfix [a; o1; b; o2; c])
  = JS.Num (if yields o2 o1
            then operate Math_pow o2 (operate Math_pow o1 A B) C
            else operate Math_pow o1 A (operate Math_pow o2 B C)).
Proof.
  intros Ha Hb Hc H1 H2 A B C.
  assert (E : postfix [a; o1; b; o2; c]
              = if yields o2 o1 then [a; b; o1; c; o2] else [a; b; c; o2; o1]).
  { unfold postfix. cbn [shuntingYard_loop].
    rewrite Ha, (isOperator_not_number _ H1), H1. cbn [pop_operators app].
    rewrite Hb, (isOperator_not_number _ H2), H2. cbn [pop_operators app].
    destruct (yields o2 o1); cbn [pop_operators app]; now rewrite Hc. }
  split; [exact E|]. rewrite E. unfold evaluateRPN.
  destruct (yields o2 o1); cbn [fold_left];
    rewrite (evaluateRPN_step_number Math_pow a _ Ha);
    rewrite (evaluateRPN_step_number Math_pow b _ Hb).
  - rewrite (evaluateRPN_step_operate Math_pow o1 _ _ _ H1).
    rewrite (evaluateRPN_step_number Math_pow c _ Hc).
    now rewrite (evaluateRPN_step_operate Math_pow o2 _ _ _ H2).
  - rewrite (evaluateRPN_step_number Math_pow c _ Hc).
    rewrite (evaluateRPN_step_operate Math_pow o2 _ _ _ H2).
    now rewrite (evaluateRPN_step_operate Math_pow o1 _ _ _ H1).
Qed.

Lemma evaluateRPN_grouping_witness :
  postfix ["2"; "^"; "3"; "^"; "2"] = ["2"; "3"; "2"; "^"; "^"] /\
  postfix ["8"; "-"; "3"; "-"; "2"] = ["8"; "3"; "-"; "2"; "-"].
Proof.
  split.
  - apply (evaluateRPN_grouping pow_natural "2" "3" "2" "^" "^"); reflexivity.
  - apply (evaluateRPN_grouping pow_natural "8" "3" "2" "-" "-"); reflexivity.
Defined.

(** ** The shape of the converter's output *)

Lemma yields_paren (token : string) : yields token "(" = false.
Proof.
  unfold yields. change (precedence "(") with (@None Z).
  unfold lte, lth. destruct (precedence token); now rewrite !andb_false_r.
Qed.

Lemma yields_not_paren (token top : string) :
  yields token top = true -> top <> "(".
Proof. intros H ->. now rewrite yields_paren in H. Qed.

Lemma stack_ok_not_number (t : string) : stack_ok t -> isNumber t = false.
Proof. intros [H| ->]; [now apply isOperator_not_number | reflexivity]. Qed.

Lemma pop_to_paren_run (operatorStack : list string) :
  forall outputQueue, exists popped kept,
    operatorStack = (popped ++ kept)%list /\
    Forall (fun top => top <> "(") popped /\
    pop_to_paren outputQueue operatorStack = ((outputQueue ++ popped)%list, kept).
Proof.
  induction operatorStack as [|top below IH]; intros outputQueue.
  - exists [], []. cbn. rewrite app_nil_r. repeat split. constructor.
  - cbn [pop_to_paren]. destruct (String.eqb_spec top "(") as [->|Hne]; cbn [negb].
    + exists [], ("(" :: below). rewrite app_nil_r. repeat split. constructor.
    + destruct (IH (outputQueue ++ [top])%list) as (popped & kept & -> & HF & ->).
      exists (top :: popped), kept. rewrite <- app_assoc.
      repeat split. now constructor.
Qed.

(** What the main loop keeps true: the stack holds operators and left
    parentheses only, what is moved to the output are numbers and
    operators, and the numbers are moved in the order of the input. *)
Lemma shuntingYard_loop_invariant (tokens : list string) :
  forall outputQueue operatorStack,
    Forall stack_ok operatorStack ->
    exists moved operatorStack',
      shuntingYard_loop tokens outputQueue operatorStack
      = ((outputQueue ++ moved)%list, operatorStack') /\
      Forall stack_ok operatorStack' /\
      Forall (fun t => isNumber t = true \/ isOperator t = true) moved /\
      filter isNumber moved = filter isNumber tokens.
Proof.
  induction tokens as [|token rest IH]; intros out st Hst.
  - exists [], st. cbn. rewrite app_nil_r. repeat split; auto.
  - cbn [shuntingYard_loop filter]. destruct (isNumber token) eqn:En.
    + destruct (IH (out ++ [token])%list st Hst) as (moved & st' & -> & H1 & H2 & H3).
      exists (token :: moved), st'. rewrite <- app_assoc. cbn [app filter].
      rewrite En, H3. repeat split; auto.
    + destruct (isOperator token) eqn:Eo.
      * destruct (pop_operators_run token st out) as (popped & kept & -> & HF & _ & ->).
        apply Forall_app in Hst as [Hpop Hkept].
        assert (Hops : Forall (fun t => isNumber t = true \/ isOperator t = true) popped).
        { apply Forall_forall. intros t Ht.
          rewrite Forall_forall in HF, Hpop.
          destruct (Hpop t Ht) as [H| ->]; [now right|].
          pose proof (HF "(" Ht) as Hc. now rewrite yields_paren in Hc. }
        assert (Hnum : filter isNumber popped = []).
        { clear -Hpop. induction popped as [|t popped IHp]; [reflexivity|].
          apply Forall_cons_iff in Hpop as [Ht Hpop]. cbn.
          now rewrite (stack_ok_not_number t Ht), IHp. }
        destruct (IH (out ++ popped)%list (token :: kept)) as (moved & st' & -> & H1 & H2 & H3).
        { constructor; [now left | exact Hkept]. }
        exists (popped ++ moved)%list, st'. rewrite <- app_assoc, filter_app, Hnum.
        repeat split; auto. now apply Forall_app.
      * destruct (String.eqb_spec token "(") as [->|Hl].
        -- destruct (IH out ("(" :: st)) as (moved & st' & -> & H1 & H2 & H3).
           { constructor; [now right | exact Hst]. }
           exists moved, st'. repeat split; auto.
        -- destruct (String.eqb_spec token ")") as [->|Hr].
           ++ destruct (pop_to_paren_run st out) as (popped & kept & -> & HF & ->).
              apply Forall_app in Hst as [Hpop Hkept].
              assert (Hops : Forall (fun t => isNumber t = true \/ isOperator t = true) popped).
              { apply Forall_forall. intros t Ht.
                rewrite Forall_forall in HF, Hpop.
                destruct (Hpop t Ht) as [H|H]; [now right|].
                now elim (HF t Ht). }
              assert (Hnum : filter isNumber popped = []).
              { clear -Hpop. induction popped as [|t popped IHp]; [reflexivity|].
                apply Forall_cons_iff in Hpop as [Ht Hpop]. cbn.
                now rewrite (stack_ok_not_number t Ht), IHp. }
              destruct (IH (out ++ popped)%list (snd (JS.pop "" kept)))
                as (moved & st' & -> & H1 & H2 & H3).
              { destruct kept as [|k kept]; [constructor|].
                now apply Forall_cons_iff in Hkept as [_ ?]. }
              exists (popped ++ moved)%list, st'.
              rewrite <- app_assoc, filter_app, Hnum.
              repeat split; auto. now apply Forall_app.
           ++ destruct (IH out st Hst) as (moved & st' & -> & H1 & H2 & H3).
              exists moved, st'. repeat split; auto.
Qed.

(** X8. The number tokens come out of the converter in the order in
    which they went in: the operands are never reordered, dropped or
    repeated, whatever the operators and parentheses around them. *)
Theorem postfix_keeps_numbers (tokens : list string) :
  filter isNumber (postfix tokens) = filter isNumber tokens.
Proof.
  unfold postfix.
  destruct (shuntingYard_loop_invariant tokens [] [] (Forall_nil _))
    as (moved & st' & -> & H1 & _ & H3).
  cbn [app]. rewrite filter_app, H3.
  assert (Hnum : filter isNumber st' = []).
  { clear -H1. induction st' as [|t st' IHs]; [reflexivity|].
    apply Forall_cons_iff in H1 as [Ht H1]. cbn.
    now rewrite (stack_ok_not_number t Ht), IHs. }
  now rewrite Hnum, app_nil_r.
Qed.

(** X9. The output of the converter holds numbers, operators and left
    parentheses only: a right parenthesis never reaches it, and a token
    that is neither a number, an operator nor a parenthesis is
    dropped. *)
Theorem postfix_tokens (tokens : list string) :
  Forall (fun t => isNumber t = true \/ isOperator t = true \/ t = "(")
         (postfix tokens).
Proof.
  unfold postfix.
  destruct (shuntingYard_loop_invariant tokens [] [] (Forall_nil _))
    as (moved & st' & -> & H1 & H2 & _).
  cbn [app]. apply Forall_app. split.
  - eapply Forall_impl; [|exact H2]. intros t [H|H]; auto.
  - eapply Forall_impl; [|exact H1]. intros t [H|H]; auto.
Qed.

(** ** Parentheses *)

Lemma pop_operators_out (token : string) (operatorStack : list string) :
  forall outputQueue,
    pop_operators token outputQueue operatorStack
    = ((outputQueue ++ fst (pop_operators token [] operatorStack))%list,
       snd (pop_operators token [] operatorStack)).
Proof.
  induction operatorStack as [|o2 below IH]; intros out; cbn [pop_operators].
  - cbn. now rewrite app_nil_r.
  - destruct (yields token o2).
    + rewrite (IH (out ++ [o2])%list), (IH ([] ++ [o2])%list).
      cbn [fst snd app]. now rewrite <- app_assoc.
    + cbn. now rewrite app_nil_r.
Qed.

Lemma pop_to_paren_out (operatorStack : list string) :
  forall outputQueue,
    pop_to_paren outputQueue operatorStack
    = ((outputQueue ++ fst (pop_to_paren [] operatorStack))%list,
       snd (pop_to_paren [] operatorStack)).
Proof.
  induction operatorStack as [|top below IH]; intros out; cbn [pop_to_paren].
  - cbn. now rewrite app_nil_r.
  - destruct (negb (top =? "(")%string).
    + rewrite (IH (out ++ [top])%list), (IH ([] ++ [top])%list).
      cbn [fst snd app]. now rewrite <- app_assoc.
    + cbn. now rewrite app_nil_r.
Qed.

(** The output queue is only appended to. *)
Lemma shuntingYard_loop_out (tokens : list string) :
  forall outputQueue operatorStack,
    shuntingYard_loop tokens outputQueue operatorStack
    = ((outputQueue ++ fst (shuntingYard_loop tokens [] operatorStack))%list,
       snd (shuntingYard_loop tokens [] operatorStack)).
Proof.
  induction tokens as [|token rest IH]; intros out st; cbn [shuntingYard_loop].
  - cbn. now rewrite app_nil_r.
  - destruct (isNumber token).
    + rewrite (IH (out ++ [token])%list), (IH ([] ++ [token])%list).
      cbn [fst snd app]. now rewrite <- app_assoc.
    + destruct (isOperator token).
      * rewrite (pop_operators_out token st out).
        destruct (pop_operators token [] st) as [q s]. cbn [fst snd].
        rewrite (IH (out ++ q)%list), (IH q). cbn [fst snd].
        now rewrite <- app_assoc.
      * destruct (token =? "(")%string; [apply IH|].
        destruct (token =? ")")%string; [|apply IH].
        rewrite (pop_to_paren_out st out).
        destruct (pop_to_paren [] st) as [q s]. cbn [fst snd].
        rewrite (IH (out ++ q)%list), (IH q). cbn [fst snd].
        now rewrite <- app_assoc.
Qed.

Lemma shuntingYard_loop_app (tokens1 tokens2 : list string) :
  forall outputQueue operatorStack,
    shuntingYard_loop (tokens1 ++ tokens2) outputQueue operatorStack
    = shuntingYard_loop tokens2
        (fst (shuntingYard_loop tokens1 outputQueue operatorStack))
        (snd (shuntingYard_loop tokens1 outputQueue operatorStack)).
Proof.
  induction tokens1 as [|token rest IH]; intros out st; [reflexivity|].
  cbn [app shuntingYard_loop].
  destruct (isNumber token); [apply IH|].
  destruct (isOperator token).
  - destruct (pop_operators token out st). apply IH.
  - destruct (token =? "(")%string; [apply IH|].
    destruct (token =? ")")%string; [|apply IH].
    destruct (pop_to_paren out st). apply IH.
Qed.

(** A left parenthesis on the stack is a barrier for the operator
    loop. *)
Lemma pop_operators_barrier (token : string) (X below : list string) :
  forall outputQueue,
    pop_operators token outputQueue (X ++ "(" :: below)
    = (fst (pop_operators token outputQueue X),
       (snd (pop_operators token outputQueue X) ++ "(" :: below)%list) /\
    parens (snd (pop_operators token outputQueue X)) = parens X.
Proof.
  induction X as [|o2 X IH]; intros out; cbn [app pop_operators].
  - now rewrite yields_paren.
  - destruct (yields token o2) eqn:E; [|now split].
    destruct (IH (out ++ [o2])%list) as [-> ->]. split; [reflexivity|].
    cbn [parens]. destruct (String.eqb_spec o2 "(") as [->|_]; [|reflexivity].
    now rewrite yields_paren in E.
Qed.

(** A right parenthesis stops at the first left parenthesis. *)
Lemma pop_to_paren_barrier (X Y : list string) :
  forall outputQueue depth,
    parens X = S depth ->
    exists popped X',
      pop_to_paren outputQueue X = ((outputQueue ++ popped)%list, "(" :: X') /\
      pop_to_paren outputQueue (X ++ Y)
      = ((outputQueue ++ popped)%list, ("(" :: X' ++ Y)%list) /\
      parens X' = depth.
Proof.
  induction X as [|top X IH]; intros out depth H; [discriminate|].
  cbn [app pop_to_paren parens] in *.
  destruct (String.eqb_spec top "(") as [->|Hne]; cbn [negb].
  - exists [], X. rewrite app_nil_r. injection H as ->. now repeat split.
  - destruct (IH (out ++ [top])%list depth H) as (popped & X' & -> & -> & HX).
    exists (top :: popped), X'. rewrite <- app_assoc. now repeat split.
Qed.

Lemma pop_to_paren_stop (S' Y : list string) :
  parens S' = O ->
  forall outputQueue,
    pop_to_paren outputQueue (S' ++ "(" :: Y)
    = ((outputQueue ++ S')%list, "(" :: Y).
Proof.
  induction S' as [|top S' IH]; intros H out; cbn [app pop_to_paren parens] in *.
  - now rewrite app_nil_r.
  - destruct (String.eqb_spec top "(") as [->|Hne]; [discriminate|]. cbn [negb].
    now rewrite IH, <- app_assoc.
Qed.

(** While the parentheses of the tokens match, what lies under a left
    parenthesis of the stack is not touched, and the left parentheses
    of the stack are those still open. *)
Lemma shuntingYard_loop_barrier (tokens : list string) :
  forall outputQueue X below depth,
    balance tokens (parens X) = Some depth ->
    shuntingYard_loop tokens outputQueue (X ++ "(" :: below)
    = (fst (shuntingYard_loop tokens outputQueue X),
       (snd (shuntingYard_loop tokens outputQueue X) ++ "(" :: below)%list) /\
    parens (snd (shuntingYard_loop tokens outputQueue X)) = depth.
Proof.
  induction tokens as [|token rest IH]; intros out X below depth H.
  - cbn in *. injection H as <-. now split.
  - cbn [balance] in H. cbn [shuntingYard_loop].
    destruct (String.eqb_spec token "(") as [->|Hl].
    + change (isNumber "(") with false. change (isOperator "(") with false.
      cbv iota. apply (IH out ("(" :: X) below depth H).
    + destruct (String.eqb_spec token ")") as [->|Hr].
      * change (isNumber ")") with false. change (isOperator ")") with false.
        cbv iota. destruct (parens X) as [|d] eqn:EX; [discriminate|].
        destruct (pop_to_paren_barrier X ("(" :: below) out d EX)
          as (popped & X' & -> & -> & HX').
        cbn [JS.pop snd]. apply IH. now rewrite HX'.
      * destruct (isNumber token); [now apply IH|].
        destruct (isOperator token) eqn:Eo; [|now apply IH].
        destruct (pop_operators_barrier token X below out) as [-> HP].
        destruct (pop_operators token out X) as [q s]. cbn [fst snd] in *.
        apply (IH q (token :: s) below depth). cbn [parens].
        destruct (String.eqb_spec token "(") as [->|_]; [discriminate Eo|].
        now rewrite HP.
Qed.

(** X10. A parenthesised group whose own parentheses match is
    converted on its own: its postfix form is appended to the output
    queue, and the operator stack is left as the group found it,
    whatever it held. *)
Theorem shuntingYard_group
  (tokens rest outputQueue operatorStack : list string) :
  balance tokens 0 = Some O ->
  shuntingYard_loop ("(" :: tokens ++ ")" :: rest) outputQueue operatorStack
  = shuntingYard_loop rest (outputQueue ++ postfix tokens)%list operatorStack.
Proof.
  intros H.
  change (shuntingYard_loop ("(" :: tokens ++ ")" :: rest) outputQueue operatorStack)
    with (shuntingYard_loop (tokens ++ ")" :: rest) outputQueue
            ([] ++ "(" :: operatorStack)).
  rewrite shuntingYard_loop_app.
  destruct (shuntingYard_loop_barrier tokens outputQueue [] operatorStack O H)
    as [-> HP].
  rewrite (shuntingYard_loop_out tokens outputQueue []) in *.
  unfold postfix. destruct (shuntingYard_loop tokens [] []) as [q s].
  cbn [fst snd] in *. cbn [shuntingYard_loop].
  change (isNumber ")") with false. change (isOperator ")") with false.
  cbv iota. change (")" =? "(")%string with false.
  change (")" =? ")")%string with true. cbv iota.
  rewrite (pop_to_paren_stop s operatorStack HP). cbn [JS.pop snd].
  now rewrite app_assoc.
Qed.

Lemma shuntingYard_group_witness :
  shuntingYard_loop ("(" :: ["2"; "+"; "("; "3"; ")"] ++ ")" :: ["*"; "4"]) ["1"] ["-"]
  = shuntingYard_loop ["*"; "4"] (["1"] ++ postfix ["2"; "+"; "("; "3"; ")"])%list ["-"].
Proof.
  apply (shuntingYard_group ["2"; "+"; "("; "3"; ")"] ["*"; "4"] ["1"] ["-"]).
  reflexivity.
Defined.

(** X11. When the parentheses of the tokens match, no parenthesis is
    left in the output of the converter: it holds numbers and
    operators only. *)
Theorem postfix_balanced (tokens : list string) :
  balance tokens 0 = Some O ->
  Forall (fun t => isNumber t = true \/ isOperator t = true) (postfix tokens).
Proof.
  intros H. unfold postfix.
  destruct (shuntingYard_loop_barrier tokens [] [] [] O H) as [_ HP].
  destruct (shuntingYard_loop_invariant tokens [] [] (Forall_nil _))
    as (moved & st' & E & H1 & H2 & _).
  rewrite E in *. cbn [app snd] in *. apply Forall_app. split; [exact H2|].
  clear -H1 HP. induction st' as [|t st' IH]; [constructor|].
  apply Forall_cons_iff in H1 as [Ht H1]. cbn [parens] in HP.
  destruct (String.eqb_spec t "(") as [->|Hne]; [discriminate|].
  constructor; [|now apply IH]. right. now destruct Ht.
Qed.

Lemma postfix_balanced_witness :
  Forall (fun t => isNumber t = true \/ isOperator t = true)
         (postfix ["("; "2"; "+"; "3"; ")"; "*"; "4"]).
Proof.
  apply (postfix_balanced ["("; "2"; "+"; "3"; ")"; "*"; "4"]). reflexivity.
Defined.

(** ** [isInteger] and [isNumber] *)

(** X12. [isInteger] looks at one character only, the first after
    white space and one sign: it holds exactly when that character is a
    digit, whatever follows it. *)
Theorem isInteger_first_char (input : string) :
  isInteger input
  = match snd (JS.splitSign (JS.trimStart input)) with
    | String c _ => JS.isDigit c
    | EmptyString => false
    end.
Proof.
  unfold isInteger, JS.parseInt10.
  destruct (JS.splitSign (JS.trimStart input)) as [neg u]. cbn [snd].
  destruct u as [|c u]; [reflexivity|]. cbn [JS.spanDigits].
  destruct (JS.isDigit c); [|reflexivity].
  destruct (JS.spanDigits u) as [d r]. now rewrite roundDecimal_not_NaN.
Qed.

(** X13. No token is both a number and an operator or a parenthesis:
    a number has a character that is no operator symbol, so it occurs
    nowhere in [operators], is no operator and no parenthesis. *)
Theorem number_is_no_operator (t : string) :
  isNumber t = true ->
  every isOperatorChar t = false /\
  JS.indexOf operators t = -1 /\
  isOperator t = false /\ t <> "(" /\ t <> ")".
Proof.
  intros H.
  assert (E : every isOperatorChar t = false).
  { destruct (every isOperatorChar t) eqn:E; [|reflexivity].
    unfold isNumber in H. now rewrite (operator_string_not_number t E) in H. }
  split; [exact E|]. split; [now apply indexOf_operators_none|].
  split; [|split; intros ->; discriminate H].
  destruct (isOperator t) eqn:Eo; [|reflexivity].
  now rewrite (isOperator_not_number t Eo) in H.
Qed.

Lemma number_is_no_operator_witness :
  every isOperatorChar "-.5" = false /\
  JS.indexOf operators "-.5" = -1 /\
  isOperator "-.5" = false /\ "-.5" <> "(" /\ "-.5" <> ")".
Proof. apply (number_is_no_operator "-.5"). reflexivity. Defined.

(** ** What the evaluator keeps on its stack *)

Lemma evaluateRPN_stack (input : list string) :
  forall Math_pow all stack,
    (forall s, In s input -> In s all) ->
    Forall (stack_value all) stack ->
    Forall (stack_value all)
           (fold_left (evaluateRPN_step Math_pow) input stack).
Proof.
  induction input as [|token rest IH]; intros Math_pow all stack Hin H;
    [exact H|].
  cbn [fold_left]. apply IH; [intros s Hs; apply Hin; now right|].
  unfold evaluateRPN_step. destruct (isNumber token) eqn:En.
  - constructor; [|exact H]. split; [exact En | apply Hin; now left].
  - assert (H2 : Forall (stack_value all) (skipn 2 stack)).
    { destruct stack as [|x [|y stack]]; cbn; auto.
      now apply Forall_cons_iff in H as [_ [_ H]%Forall_cons_iff]. }
    destruct stack as [|x [|y stack]]; cbn [JS.pop skipn] in *;
      repeat case_if; try constructor; auto; exact I.
Qed.

(** X14. The evaluator returns a Number, or one of the number tokens of
    its input, unchanged and as a string, or [undefined]; no other
    string and no operator or parenthesis is ever the result, and
    [undefined] is returned exactly when the stack is empty at the
    end. *)
Theorem evaluateRPN_value
  (Math_pow : JS.number -> JS.number -> JS.number) (input : list string) :
  match evaluateRPN Math_pow input with
  | JS.Str s => isNumber s = true /\ In s input
  | JS.Num _ => True
  | JS.Undefined => fold_left (evaluateRPN_step Math_pow) input [] = []
  end.
Proof.
  unfold evaluateRPN.
  pose proof (evaluateRPN_stack input Math_pow input [] (fun s H => H)
                (Forall_nil _)) as H.
  destruct (fold_left (evaluateRPN_step Math_pow) input []) as [|v stack];
    [reflexivity|].
  apply Forall_cons_iff in H as [Hv _]. cbn. destruct v; [elim Hv | exact Hv | exact I].
Qed.

(** ** The message handler *)

Lemma prefix_append (p e : string) : String.prefix p (p ++ e) = true.
Proof.
  induction p as [|c p IH]; cbn [append].
  - now destruct e.
  - cbn [String.prefix]. destruct (ascii_dec c c) as [_|H]; [exact IH | now elim H].
Qed.

Lemma prefix_split (p s : string) :
  String.prefix p s = true -> exists e, s = p ++ e.
Proof.
  revert s. induction p as [|c p IH]; intros s H.
  - now exists s.
  - destruct s as [|c' s]; [discriminate|]. cbn [String.prefix] in H.
    destruct (ascii_dec c c') as [<-|_]; [|discriminate].
    destruct (IH s H) as [e ->]. now exists e.
Qed.

Lemma substring_whole (s : string) : substring 0 (String.length s) s = s.
Proof. induction s as [|c s IH]; cbn; congruence. Qed.

Lemma substring_nothing (s : string) : substring 0 0 s = "".
Proof. now destruct s. Qed.

(** A text is a request exactly when it begins with [calc ]. *)
Lemma request_iff (text : string) :
  (JS.indexOf text "calc " =? 0) = true <-> exists e, text = "calc " ++ e.
Proof.
  unfold JS.indexOf. split.
  - destruct (index 0 "calc " text) as [n|] eqn:E; [|discriminate].
    intros H. apply Z.eqb_eq in H. assert (n = O) by lia. subst n.
    apply index_correct1 in E. apply prefix_split.
    now apply prefix_correct.
  - intros [e ->]. cbn [append index].
    change (prefix "calc " (String "c" (String "a" (String "l" (String "c" (String " " e))))))
      with (prefix "" e).
    now destruct e.
Qed.

Lemma remove_first_request (e : string) : remove_first ("calc " ++ e) "calc " = e.
Proof.
  unfold remove_first. cbn [append index].
  change (prefix "calc " (String "c" (String "a" (String "l" (String "c" (String " " e))))))
    with (prefix "" e).
  replace (prefix "" e) with true by (now destruct e).
  cbn. rewrite Nat.sub_0_r. apply substring_whole.
Qed.

Section HandlerFacts.

Variable Math_pow : JS.number -> JS.number -> JS.number.
Variable Number_toString : JS.number -> string.

(** The handler on a request, in terms of the pipeline. *)
Lemma on_message_request (e : string) (tokens : list string) :
  on_message Math_pow Number_toString ("calc " ++ e) tokens
  = match evaluateExpression Math_pow (remove_spaces e) tokens with
    | (Ret result, tokens') =>
        (Some (e ++ "=" ++ ToString Number_toString result), tokens')
    | (Throw ex, tokens') => (Some (message ex), tokens')
    end.
Proof.
  unfold on_message.
  rewrite (proj2 (request_iff ("calc " ++ e)) (ex_intro _ e eq_refl)).
  now rewrite remove_first_request.
Qed.

Lemma evaluateExpression_literal_text (s : string) :
  literal s = true -> JS.isFinite (JS.Str s) = true ->
  evaluateExpression Math_pow s [] = (Ret (JS.Str s), []).
Proof.
  intros H Hf. pose proof (literal_isNumber s H Hf) as Hn.
  rewrite (evaluateExpression_on Math_pow s [] [s] (read_literal s H)).
  unfold postfix. cbn [shuntingYard_loop]. rewrite Hn. cbn [app].
  unfold evaluateRPN. cbn [fold_left].
  now rewrite (evaluateRPN_step_number Math_pow s [] Hn).
Qed.

End HandlerFacts.

(** X15. The handler answers a message exactly when its text begins
    with [calc ]; any other message gets no reply and leaves the token
    buffer as it is. *)
Theorem on_message_answers
  (Math_pow : JS.number -> JS.number -> JS.number)
  (Number_toString : JS.number -> string)
  (text : string) (tokens : list string) :
  ((exists reply, fst (on_message Math_pow Number_toString text tokens) = Some reply)
   <-> exists e, text = "calc " ++ e) /\
  (fst (on_message Math_pow Number_toString text tokens) = None ->
   snd (on_message Math_pow Number_toString text tokens) = tokens).
Proof.
  unfold on_message. destruct (JS.indexOf text "calc " =? 0) eqn:E.
  - apply request_iff in E as He. split.
    + split; [intros _; exact He|]. intros _.
      destruct (evaluateExpression _ _ _) as [[v|ex] ts]; eexists; reflexivity.
    + destruct (evaluateExpression _ _ _) as [[v|ex] ts]; discriminate.
  - split; [|reflexivity]. split.
    + intros [reply H]. discriminate H.
    + intros He. apply request_iff in He. congruence.
Qed.

Lemma on_message_answers_witness :
  snd (on_message pow_natural (fun _ => "") "2+2" ["7"]) = ["7"].
Proof.
  apply (proj2 (on_message_answers pow_natural (fun _ => "") "2+2" ["7"])).
  reflexivity.
Defined.

(** X16. Spaces are removed before the expression is read, so digits
    that spaces separate are read as one literal: when the expression
    without its spaces is a literal with a finite value, the reply on
    an empty buffer is the expression as typed, an equals sign and the
    literal without the spaces. *)
Theorem on_message_literal
  (Math_pow : JS.number -> JS.number -> JS.number)
  (Number_toString : JS.number -> string) (e : string) :
  literal (remove_spaces e) = true ->
  JS.isFinite (JS.Str (remove_spaces e)) = true ->
  on_message Math_pow Number_toString ("calc " ++ e) []
  = (Some (e ++ "=" ++ remove_spaces e), []).
Proof.
  intros H Hf. rewrite on_message_request.
  now rewrite (evaluateExpression_literal_text Math_pow _ H Hf).
Qed.

Lemma on_message_literal_witness :
  on_message pow_natural (fun _ => "") ("calc " ++ "- 1 2 . 5") []
  = (Some ("- 1 2 . 5" ++ "=" ++ "-12.5"), []).
Proof.
  apply (on_message_literal pow_natural (fun _ => "") "- 1 2 . 5"); reflexivity.
Defined.

(** X17. A request whose expression, once its spaces are removed, has
    a character that is no point, digit, operator or parenthesis is
    answered with the message of the exception and nothing else,
    whatever the buffer holds; only the space is removed, so a tab is
    such a character. *)
Theorem on_message_unidentified
  (Math_pow : JS.number -> JS.number -> JS.number)
  (Number_toString : JS.number -> string)
  (e : string) (tokens : list string) :
  every identified (remove_spaces e) = false ->
  fst (on_message Math_pow Number_toString ("calc " ++ e) tokens)
  = Some "Your expression contains unidentified character(s).".
Proof.
  intros H. rewrite on_message_request.
  destruct (read_unidentified (remove_spaces e) tokens H) as (tokens' & _ & E).
  now rewrite E.
Qed.

Lemma on_message_unidentified_witness :
  fst (on_message pow_natural (fun _ => "")
         ("calc " ++ String "1" (String "009" "+2")) ["7"])
  = Some "Your expression contains unidentified character(s).".
Proof.
  apply (on_message_unidentified pow_natural (fun _ => "")
           (String "1" (String "009" "+2")) ["7"]).
  reflexivity.
Defined.

Lemma session_cons
  (Math_pow : JS.number -> JS.number -> JS.number)
  (Number_toString : JS.number -> string)
  (text : string) (texts tokens : list string) :
  session Math_pow Number_toString (text :: texts) tokens
  = (fst (on_message Math_pow Number_toString text tokens)
       :: fst (session Math_pow Number_toString texts
                 (snd (on_message Math_pow Number_toString text tokens))),
     snd (session Math_pow Number_toString texts
            (snd (on_message Math_pow Number_toString text tokens)))).
Proof.
  cbn [session]. destruct (on_message _ _ text tokens) as [reply tokens'].
  cbn [fst snd]. now destruct (session _ _ texts tokens').
Qed.

(** X18. As long as no message of a session has an unidentified
    character, each reply is the one a calculator with an empty buffer
    gives to that message alone: nothing is carried from one message to
    the next, and the buffer is empty after the last. *)
Theorem session_independent
  (Math_pow : JS.number -> JS.number -> JS.number)
  (Number_toString : JS.number -> string) (texts : list string) :
  forallb well_formed texts = true ->
  session Math_pow Number_toString texts []
  = (map (fun text => fst (on_message Math_pow Number_toString text [])) texts,
     []).
Proof.
  induction texts as [|text texts IH]; intros H; [reflexivity|].
  cbn [forallb] in H. apply andb_true_iff in H as [Hw H].
  rewrite session_cons.
  assert (E : snd (on_message Math_pow Number_toString text []) = []).
  { unfold on_message, well_formed in *.
    destruct (JS.indexOf text "calc " =? 0); [|reflexivity].
    cbn [negb orb] in Hw.
    destruct (evaluateExpression_identified Math_pow _ [] Hw) as [v ->].
    reflexivity. }
  rewrite E, (IH H). reflexivity.
Qed.

Lemma session_independent_witness :
  session pow_natural (fun _ => "") ["calc (2"; "hello"; "calc 5"] []
  = (map (fun text => fst (on_message pow_natural (fun _ => "") text []))
       ["calc (2"; "hello"; "calc 5"], []).
Proof.
  apply (session_independent pow_natural (fun _ => "") ["calc (2"; "hello"; "calc 5"]).
  reflexivity.
Defined.

(** ** Chains of operators *)

Lemma read_loop_chain (pairs : list (ascii * string)) :
  Forall chain_link pairs ->
  forall token tokens,
    token <> "" -> every isOperatorChar token = false ->
    (last <- read_loop (chain pairs) token ;; flush last) tokens
    = (Ret tt, (tokens ++ token :: chain_tokens pairs)%list).
Proof.
  induction pairs as [|[o b] pairs IH]; intros H token tokens Hne Ht.
  - unfold bind. cbn [chain read_loop ret chain_tokens].
    rewrite flush_flushed. unfold flushed.
    now destruct (String.eqb_spec token "").
  - apply Forall_cons_iff in H as [(Ho & Hb & _) H]. cbn [fst snd] in *.
    cbn [chain chain_tokens]. unfold bind in *.
    rewrite (read_loop_operand o b (chain pairs) token tokens
               (isOperator_char_cases o Ho) Hb Hne Ht).
    assert (Hlb : literal b = true)
      by (unfold operand in Hb; now apply andb_true_iff in Hb as [? _]).
    destruct (literal_not_operators b Hlb) as [Hnop Hbne].
    rewrite (IH H b _ Hbne Hnop). now rewrite <- app_assoc.
Qed.

(** X19. The tokenizer on a chain: a literal followed by any number of
    operators, each with an operand after it (a literal that does not
    begin with its point), is cut on an empty buffer into exactly
    these literals and operators, in their order. *)
Theorem read_chain (a : string) (pairs : list (ascii * string)) :
  literal a = true ->
  Forall chain_link pairs ->
  read (a ++ chain pairs) [] = (Ret tt, a :: chain_tokens pairs).
Proof.
  intros Ha H. destruct (literal_not_operators a Ha) as [Hnop Hne].
  unfold read, bind. rewrite (read_loop_literal_more a _ Ha).
  exact (read_loop_chain pairs H a [] Hne Hnop).
Qed.

Lemma read_chain_witness :
  read ("-2" ++ chain [("*"%char, "3.5"); ("-"%char, "-4"); ("^"%char, "2")]) []
  = (Ret tt, ["-2"; "*"; "3.5"; "-"; "-4"; "^"; "2"]).
Proof.
  apply (read_chain "-2" [("*"%char, "3.5"); ("-"%char, "-4"); ("^"%char, "2")]).
  - reflexivity.
  - repeat constructor.
Defined.

Lemma chain_link_number (p : ascii * string) :
  chain_link p -> isNumber (snd p) = true.
Proof.
  intros (_ & Hb & Hf). apply literal_isNumber; [|exact Hf].
  unfold operand in Hb. now apply andb_true_iff in Hb as [? _].
Qed.

(** The converter on a chain of one level: each operator pops the one
    before it. *)
Lemma shuntingYard_loop_chain (pairs : list (ascii * string)) :
  Forall chain_link pairs ->
  forall o outputQueue,
    (forall p, In p pairs -> yields (char (fst p)) (char o) = true) ->
    (forall p p', In p pairs -> In p' pairs ->
                  yields (char (fst p')) (char (fst p)) = true) ->
    let (q, s) := shuntingYard_loop (chain_tokens pairs) outputQueue [char o] in
    (q ++ s)%list = (outputQueue ++ char o :: chain_postfix pairs)%list.
Proof.
  induction pairs as [|[o2 b] pairs IH]; intros H o out Ho Hall.
  - reflexivity.
  - apply Forall_cons_iff in H as [Hp H].
    pose proof (chain_link_number _ Hp) as Hb. destruct Hp as (Hop & _).
    cbn [fst snd] in *. cbn [chain_tokens chain_postfix shuntingYard_loop].
    rewrite (isOperator_not_number _ Hop), Hop. cbn [pop_operators].
    pose proof (Ho (o2, b) (or_introl eq_refl)) as Hy. cbn [fst] in Hy.
    rewrite Hy. cbn [pop_operators]. rewrite Hb.
    specialize (IH H o2 ((out ++ [char o]) ++ [b])%list).
    destruct (shuntingYard_loop (chain_tokens pairs) _ [char o2]) as [q s].
    rewrite IH.
    + now rewrite <- !app_assoc.
    + intros p Hin. apply (Hall (o2, b) p); [now left | now right].
    + intros p p' Hin Hin'. apply Hall; now right.
Qed.

Lemma evaluateRPN_chain
  (Math_pow : JS.number -> JS.number -> JS.number)
  (pairs : list (ascii * string)) :
  Forall chain_link pairs ->
  forall v stack,
    fold_left (evaluateRPN_step Math_pow) (chain_postfix pairs) (v :: stack)
    = fold_left (fun acc p =>
                   JS.Num (operate Math_pow (char (fst p)) (JS.ToNumber acc)
                             (JS.StringToNumber (snd p))))
        pairs v :: stack.
Proof.
  induction pairs as [|[o b] pairs IH]; intros H v stack; [reflexivity|].
  apply Forall_cons_iff in H as [Hp H].
  pose proof (chain_link_number _ Hp) as Hb. destruct Hp as (Hop & _).
  cbn [fst snd] in *. cbn [chain_postfix fold_left].
  rewrite (evaluateRPN_step_number Math_pow b _ Hb).
  rewrite (evaluateRPN_step_operate Math_pow (char o) _ _ _ Hop).
  now rewrite IH.
Qed.

(** X20. A chain of operators of one level (additions and
    subtractions, or multiplications and divisions) is evaluated from
    left to right, whatever its length: the result is the operators
    applied in turn to the result so far and the next operand. *)
Theorem evaluateExpression_chain
  (Math_pow : JS.number -> JS.number -> JS.number)
  (a : string) (pairs : list (ascii * string)) :
  literal a = true -> JS.isFinite (JS.Str a) = true ->
  Forall chain_link pairs ->
  one_level pairs = true ->
  evaluateExpression Math_pow (a ++ chain pairs) []
  = (Ret (fold_left (fun acc p =>
                       JS.Num (operate Math_pow (char (fst p)) (JS.ToNumber acc)
                                 (JS.StringToNumber (snd p))))
            pairs (JS.Str a)), []).
Proof.
  intros Ha Hfa H Hlevel.
  pose proof (literal_isNumber a Ha Hfa) as Hna.
  destruct (literal_not_operators a Ha) as [Hnop Hne].
  assert (Hread : read (a ++ chain pairs) [] = (Ret tt, a :: chain_tokens pairs)).
  { unfold read, bind. rewrite (read_loop_literal_more a _ Ha).
    exact (read_loop_chain pairs H a [] Hne Hnop). }
  rewrite (evaluateExpression_on Math_pow _ _ _ Hread). f_equal. f_equal.
  assert (Hall : forall p p', In p pairs -> In p' pairs ->
                              yields (char (fst p')) (char (fst p)) = true).
  { intros p p' Hin Hin'. unfold one_level in Hlevel.
    rewrite forallb_forall in Hlevel. specialize (Hlevel p Hin).
    rewrite forallb_forall in Hlevel. exact (Hlevel p' Hin'). }
  assert (E : postfix (a :: chain_tokens pairs) = a :: chain_postfix pairs).
  { unfold postfix. cbn [shuntingYard_loop]. rewrite Hna. cbn [app].
    destruct pairs as [|[o b] pairs]; [reflexivity|].
    apply Forall_cons_iff in H as [Hp H].
    pose proof (chain_link_number _ Hp) as Hb. destruct Hp as (Hop & _).
    cbn [fst snd] in *. cbn [chain_tokens chain_postfix shuntingYard_loop].
    rewrite (isOperator_not_number _ Hop), Hop. cbn [pop_operators]. rewrite Hb.
    pose proof (shuntingYard_loop_chain pairs H o ([a] ++ [b])%list) as L.
    destruct (shuntingYard_loop (chain_tokens pairs) _ [char o]) as [q s].
    rewrite L; [reflexivity | |].
    - intros p Hin. apply (Hall (o, b) p); [now left | now right].
    - intros p p' Hin Hin'. apply Hall; now right. }
  rewrite E. unfold evaluateRPN. cbn [fold_left].
  rewrite (evaluateRPN_step_number Math_pow a _ Hna).
  now rewrite (evaluateRPN_chain Math_pow pairs H).
Qed.

Lemma evaluateExpression_chain_witness :
  evaluateExpression pow_natural
    ("8" ++ chain [("-"%char, "3"); ("+"%char, "-2.5"); ("-"%char, "1")]) []
  = (Ret (fold_left (fun acc p =>
                       JS.Num (operate pow_natural (char (fst p)) (JS.ToNumber acc)
                                 (JS.StringToNumber (snd p))))
            [("-"%char, "3"); ("+"%char, "-2.5"); ("-"%char, "1")] (JS.Str "8")), []).
Proof.
  apply (evaluateExpression_chain pow_natural "8"
           [("-"%char, "3"); ("+"%char, "-2.5"); ("-"%char, "1")]);
    try reflexivity.
  repeat constructor.
Defined.

Lemma shuntingYard_loop_tower (pairs : list (ascii * string)) :
  Forall chain_link pairs ->
  Forall (fun p => fst p = "^"%char) pairs ->
  forall outputQueue k,
    shuntingYard_loop (chain_tokens pairs) outputQueue (repeat "^" k)
    = ((outputQueue ++ map snd pairs)%list,
       repeat "^" (List.length pairs + k)).
Proof.
  induction pairs as [|[o b] pairs IH]; intros H Hp out k.
  - cbn. now rewrite app_nil_r.
  - apply Forall_cons_iff in H as [Hl H]. apply Forall_cons_iff in Hp as [Ho Hp].
    pose proof (chain_link_number _ Hl) as Hb. cbn [fst snd] in *. subst o.
    cbn [chain_tokens shuntingYard_loop].
    change (isNumber (char "^")) with false. change (isOperator (char "^")) with true.
    cbv iota.
    assert (E : pop_operators (char "^") out (repeat "^" k) = (out, repeat "^" k))
      by (destruct k; reflexivity).
    rewrite E, Hb.
    change (char "^" :: repeat "^" k) with (repeat "^" (S k)).
    rewrite (IH H Hp). cbn [map List.length snd].
    now rewrite <- app_assoc, Nat.add_succ_r.
Qed.

Lemma evaluateRPN_numbers
  (Math_pow : JS.number -> JS.number -> JS.number) (numbers : list string) :
  Forall (fun b => isNumber b = true) numbers ->
  forall stack,
    fold_left (evaluateRPN_step Math_pow) numbers stack
    = (rev (map JS.Str numbers) ++ stack)%list.
Proof.
  induction numbers as [|b numbers IH]; intros H stack; [reflexivity|].
  apply Forall_cons_iff in H as [Hb H]. cbn [fold_left map rev].
  rewrite (evaluateRPN_step_number Math_pow b _ Hb), (IH H).
  now rewrite <- app_assoc.
Qed.

Lemma evaluateRPN_tower
  (Math_pow : JS.number -> JS.number -> JS.number)
  (pairs : list (ascii * string)) :
  forall x stack,
    fold_left (evaluateRPN_step Math_pow) (repeat "^" (List.length pairs))
      (rev (map JS.Str (map snd pairs)) ++ JS.Str x :: stack)%list
    = tower Math_pow x pairs :: stack.
Proof.
  induction pairs as [|[o b] pairs IH]; intros x stack; [reflexivity|].
  cbn [List.length map snd rev tower].
  replace (repeat "^" (S (List.length pairs)))
    with (repeat "^" (List.length pairs) ++ ["^"])%list
    by (now rewrite <- repeat_cons).
  rewrite fold_left_app, <- app_assoc. cbn [app].
  rewrite (IH b (JS.Str x :: stack)). reflexivity.
Qed.

(** X21. A chain of powers is evaluated from right to left, whatever
    its length: x ^ b1 ^ ... ^ bn is the power function applied to x
    and to the value of b1 ^ ... ^ bn. *)
Theorem evaluateExpression_tower
  (Math_pow : JS.number -> JS.number -> JS.number)
  (a : string) (pairs : list (ascii * string)) :
  literal a = true -> JS.isFinite (JS.Str a) = true ->
  Forall chain_link pairs ->
  Forall (fun p => fst p = "^"%char) pairs ->
  evaluateExpression Math_pow (a ++ chain pairs) []
  = (Ret (tower Math_pow a pairs), []).
Proof.
  intros Ha Hfa H Hp.
  pose proof (literal_isNumber a Ha Hfa) as Hna.
  destruct (literal_not_operators a Ha) as [Hnop Hne].
  assert (Hread : read (a ++ chain pairs) [] = (Ret tt, a :: chain_tokens pairs)).
  { unfold read, bind. rewrite (read_loop_literal_more a _ Ha).
    exact (read_loop_chain pairs H a [] Hne Hnop). }
  rewrite (evaluateExpression_on Math_pow _ _ _ Hread). f_equal. f_equal.
  unfold postfix. cbn [shuntingYard_loop]. rewrite Hna.
  change (shuntingYard_loop (chain_tokens pairs) ([] ++ [a])%list [])
    with (shuntingYard_loop (chain_tokens pairs) [a] (repeat "^" 0)).
  rewrite (shuntingYard_loop_tower pairs H Hp [a] 0).
  rewrite Nat.add_0_r. unfold evaluateRPN. cbn [app fold_left].
  rewrite (evaluateRPN_step_number Math_pow a _ Hna).
  rewrite fold_left_app, (evaluateRPN_numbers Math_pow (map snd pairs)).
  - now rewrite evaluateRPN_tower.
  - clear -H. induction H as [|p pairs Hl H IH]; [constructor|].
    cbn [map]. constructor; [now apply chain_link_number | exact IH].
Qed.

Lemma evaluateExpression_tower_witness :
  evaluateExpression pow_natural
    ("2" ++ chain [("^"%char, "3"); ("^"%char, "2")]) []
  = (Ret (tower pow_natural "2" [("^"%char, "3"); ("^"%char, "2")]), []).
Proof.
  apply (evaluateExpression_tower pow_natural "2"
           [("^"%char, "3"); ("^"%char, "2")]);
    try reflexivity; repeat constructor.
Defined.

(** ** The operators of the output *)

Lemma pop_to_paren_kept (operatorStack : list string) :
  forall outputQueue,
    filter isOperator (snd (JS.pop "" (snd (pop_to_paren outputQueue operatorStack))))
    = filter isOperator (snd (pop_to_paren outputQueue operatorStack)).
Proof.
  induction operatorStack as [|top below IH]; intros out; [reflexivity|].
  cbn [pop_to_paren]. destruct (String.eqb_spec top "(") as [->|Hne]; cbn [negb].
  - reflexivity.
  - apply IH.
Qed.

Lemma shuntingYard_loop_operators (tokens : list string) :
  forall outputQueue operatorStack,
    exists moved operatorStack',
      shuntingYard_loop tokens outputQueue operatorStack
      = ((outputQueue ++ moved)%list, operatorStack') /\
      Permutation
        (filter isOperator moved ++ filter isOperator operatorStack')
        (filter isOperator operatorStack ++ filter isOperator tokens).
Proof.
  induction tokens as [|token rest IH]; intros out st.
  - exists [], st. cbn. now rewrite !app_nil_r.
  - cbn [shuntingYard_loop filter]. destruct (isNumber token) eqn:En.
    + assert (Eo : isOperator token = false).
      { destruct (isOperator token) eqn:Eo; [|reflexivity].
        now rewrite (isOperator_not_number token Eo) in En. }
      rewrite Eo.
      destruct (IH (out ++ [token])%list st) as (moved & st' & -> & HP).
      exists (token :: moved), st'. rewrite <- app_assoc. split; [reflexivity|].
      cbn [filter]. now rewrite Eo.
    + destruct (isOperator token) eqn:Eo.
      * destruct (pop_operators_run token st out) as (popped & kept & -> & _ & _ & ->).
        destruct (IH (out ++ popped)%list (token :: kept)) as (moved & st' & -> & HP).
        exists (popped ++ moved)%list, st'. rewrite <- app_assoc.
        split; [reflexivity|]. cbn [filter] in HP. rewrite Eo in HP.
        rewrite !filter_app, <- !app_assoc.
        apply Permutation_app_head. rewrite HP. cbn [app].
        apply Permutation_middle.
      * destruct (String.eqb_spec token "(") as [->|Hl].
        -- destruct (IH out ("(" :: st)) as (moved & st' & -> & HP).
           exists moved, st'. split; [reflexivity | exact HP].
        -- destruct (String.eqb_spec token ")") as [->|Hr].
           ++ pose proof (pop_to_paren_kept st out) as Hk.
              destruct (pop_to_paren_run st out) as (popped & kept & -> & HF & E).
              rewrite E in *. cbn [snd] in Hk.
              destruct (IH (out ++ popped)%list (snd (JS.pop "" kept)))
                as (moved & st' & -> & HP).
              exists (popped ++ moved)%list, st'. rewrite <- app_assoc.
              split; [reflexivity|]. rewrite Hk in HP.
              rewrite !filter_app, <- !app_assoc.
              now apply Permutation_app_head.
           ++ destruct (IH out st) as (moved & st' & -> & HP).
              exists moved, st'. split; [reflexivity | exact HP].
Qed.

(** X22. The converter neither loses nor repeats an operator: the
    operators of its output are those of its input, each as many times,
    in a new order; with the numbers kept in their order this accounts
    for every number and operator of the input. *)
Theorem postfix_keeps_operators (tokens : list string) :
  Permutation (filter isOperator (postfix tokens)) (filter isOperator tokens).
Proof.
  unfold postfix.
  destruct (shuntingYard_loop_operators tokens [] []) as (moved & st' & -> & HP).
  cbn [app] in *. now rewrite filter_app.
Qed.

(** ** The minus sign after a parenthesis, and the buffer after an
    exception *)

Lemma read_loop_open_operand (b more : string) (tokens : list string) :
  operand b = true ->
  read_loop (String "(" (b ++ more)) "" tokens
  = read_loop more b (tokens ++ ["("])%list.
Proof.
  intros Hb. unfold operand in Hb.
  apply andb_true_iff in Hb as [Hlit Hpre]. apply negb_true_iff in Hpre.
  rewrite read_loop_cons. cbn -[read_loop append].
  destruct b as [|c b']; [discriminate|].
  destruct (ascii_dec c "-") as [->|Hc].
  - change (literal (String "-" b')) with (unsignedLiteral b') in Hlit.
    cbn [append]. rewrite read_loop_cons. cbn -[read_loop append flushed].
    rewrite flushed_char. apply read_loop_negative_more; [exact Hlit|].
    rewrite last_snoc. apply orb_true_r.
  - rewrite (literal_cons c b' Hc) in Hlit.
    destruct (unsigned_parts _ Hlit) as [Hl Hp].
    cbn [every] in Hl. apply andb_true_iff in Hl as [Hcl Hl].
    destruct (literal_char_cases c Hcl) as [[Hd Hn]|[_ ->]];
      [|destruct b'; discriminate Hpre].
    cbn [append points] in *. rewrite Hn in Hp.
    rewrite read_loop_cons, Hn, Hd.
    change ((char "(" =? "-")%string) with false.
    change (JS.indexOf operators (char "(") =? -1) with false.
    cbn [andb]. rewrite flushed_char.
    rewrite (read_loop_run b' Hl more).
    + replace (pointed (char c)) with false
        by (unfold pointed; cbn [char every]; now rewrite Hn).
      now rewrite keep_first_point_id.
    + right. cbn [char every]. now rewrite (digit_not_operator c Hd).
Qed.

(** X23. A subtraction after a parenthesised operand is not performed:
    the closing parenthesis counts as an operator for the minus sign,
    which is read into the literal after it, so that (a)-u evaluates to
    the token -u, not to a minus u. *)
Theorem evaluateExpression_minus_after_paren
  (Math_pow : JS.number -> JS.number -> JS.number) (a u : string) :
  operand a = true -> JS.isFinite (JS.Str a) = true ->
  unsignedLiteral u = true -> JS.isFinite (JS.Str (String "-" u)) = true ->
  read (String "(" (a ++ String ")" (String "-" u))) []
  = (Ret tt, ["("; a; ")"; String "-" u]) /\
  evaluateExpression Math_pow (String "(" (a ++ String ")" (String "-" u))) []
  = (Ret (JS.Str (String "-" u)), []).
Proof.
  intros Ha Hfa Hu Hfu.
  assert (Hla : literal a = true)
    by (unfold operand in Ha; now apply andb_true_iff in Ha as [? _]).
  pose proof (literal_isNumber a Hla Hfa) as Hna.
  pose proof (literal_isNumber (String "-" u) Hu Hfu) as Hnu.
  destruct (literal_not_operators a Hla) as [Hnop Hne].
  assert (Hread : read (String "(" (a ++ String ")" (String "-" u))) []
                  = (Ret tt, ["("; a; ")"; String "-" u])).
  { unfold read, bind. rewrite (read_loop_open_operand a _ [] Ha).
    rewrite read_loop_cons. cbn -[read_loop flushed].
    rewrite read_loop_cons. cbn -[read_loop flushed]. rewrite flushed_char.
    replace (flushed a ["("]) with ["("; a]
      by (unfold flushed; now destruct (String.eqb_spec a "")).
    unfold char at 1.
    pose proof (read_loop_negative_more u "" (["("; a] ++ [char ")"])%list Hu
                  eq_refl) as E.
    rewrite append_empty in E. rewrite E. cbn [read_loop ret].
    now rewrite flush_flushed. }
  split; [exact Hread|].
  rewrite (evaluateExpression_on Math_pow _ _ _ Hread). f_equal. f_equal.
  unfold postfix. cbn [shuntingYard_loop].
  change (isNumber "(") with false. change (isOperator "(") with false.
  cbv iota. change ("(" =? "(")%string with true. cbv iota. rewrite Hna.
  change (isNumber ")") with false. change (isOperator ")") with false.
  cbv iota. change (")" =? "(")%string with false.
  change (")" =? ")")%string with true. cbv iota.
  cbn [pop_to_paren String.eqb Ascii.eqb Bool.eqb negb JS.pop snd app].
  rewrite Hnu. cbn [app]. unfold evaluateRPN. cbn [fold_left].
  rewrite (evaluateRPN_step_number Math_pow a _ Hna).
  now rewrite (evaluateRPN_step_number Math_pow _ _ Hnu).
Qed.

Lemma evaluateExpression_minus_after_paren_witness :
  evaluateExpression pow_natural (String "(" ("10" ++ String ")" (String "-" "2.5"))) []
  = (Ret (JS.Str "-2.5"), []).
Proof.
  apply (proj2 (evaluateExpression_minus_after_paren pow_natural "10" "2.5"
                  eq_refl eq_refl eq_refl eq_refl)).
Defined.



